(** * mcp-adguard-home: the policy core (sanitizer, HTTP client, registration gate)

    A shallow embedding of
      - core/errors.ts   (sanitizeMessage, AdGuardError)
      - core/auth.ts     (createAuthHeader)
      - types/index.ts   (AccessTier, VALID_CATEGORIES, AppConfig, ToolRegistration)
      - core/config.ts   (loadConfig)
      - core/client.ts   (AdGuardClient: get, post, getRaw, validateConnection)
      - core/tools.ts    (registerTool and the handler wrapper it installs)
      - tools/stats.ts   (the stats_reset tool)

    Strings are sequences of code units; the model takes the code units
    U+0000..U+00FF, one [ascii] each.  [Buffer.from(s)] encodes such a string
    as UTF-8 (one byte below U+0080, two bytes from there on). *)

From Stdlib Require Import List Ascii String Bool Arith NArith ZArith Lia.
From Stdlib Require Import DecimalString.
Import ListNotations.

(* ================================================================== *)
(** * Part I: definitions                                              *)
(* ================================================================== *)

(** ** The string primitives of the platform that the sources call *)

Module JS.

Definition jsstring := list ascii.

(** A string literal of the source. *)
Definition str (s : string) : jsstring := list_ascii_of_string s.
#[global] Arguments str s : simpl never.

Definition str_eqb (a b : jsstring) : bool :=
  if list_eq_dec ascii_dec a b then true else false.

(** [s.startsWith(p)] *)
Fixpoint startsWith (p s : jsstring) : bool :=
  match p, s with
  | [], _ => true
  | _ :: _, [] => false
  | a :: p', b :: s' => Ascii.eqb a b && startsWith p' s'
  end.

(** [s.includes(p)] on strings: [p] occurs in [s] as a substring. *)
Fixpoint includes (s p : jsstring) : bool :=
  startsWith p s ||
  match s with
  | [] => false
  | _ :: s' => includes s' p
  end.

(** [s.endsWith(p)] *)
Definition endsWith (s p : jsstring) : bool := startsWith (rev p) (rev s).

(** [s.replaceAll(pat, rep)] for a string pattern and a replacement text
    without [$]: the occurrences of [pat] are found from left to right,
    the search resuming behind each occurrence (one position further for
    the empty pattern, which matches before every code unit and at the
    end).  [skip] counts the code units of the current occurrence that
    are still to be passed over. *)
Fixpoint replaceAll_from (pat rep : jsstring) (skip : nat) (s : jsstring)
  : jsstring :=
  match s with
  | [] => []
  | c :: s' =>
      match skip with
      | S k => replaceAll_from pat rep k s'
      | O =>
          if startsWith pat s
          then rep ++ replaceAll_from pat rep (List.length pat - 1) s'
          else c :: replaceAll_from pat rep 0 s'
      end
  end.

Fixpoint replaceAll_empty (rep s : jsstring) : jsstring :=
  match s with
  | [] => rep
  | c :: s' => rep ++ c :: replaceAll_empty rep s'
  end.

Definition replaceAll (s pat rep : jsstring) : jsstring :=
  match pat with
  | [] => replaceAll_empty rep s
  | _ :: _ => replaceAll_from pat rep 0 s
  end.

(** [s.split(',')]-style splitting at a one-unit separator. *)
Fixpoint split (sep : ascii) (s : jsstring) : list jsstring :=
  match s with
  | [] => [[]]
  | c :: s' =>
      if Ascii.eqb c sep then [] :: split sep s'
      else match split sep s' with
           | [] => [[c]]
           | h :: t => (c :: h) :: t
           end
  end.

(** [parts.join(sep)] *)
Fixpoint join (sep : jsstring) (parts : list jsstring) : jsstring :=
  match parts with
  | [] => []
  | [p] => p
  | p :: rest => p ++ sep ++ join sep rest
  end.

(** White space of [trim] among the code units of the model:
    TAB, LF, VT, FF, CR, SPACE and NO-BREAK SPACE. *)
Definition isWhiteSpace (c : ascii) : bool :=
  let n := nat_of_ascii c in
  ((9 <=? n) && (n <=? 13)) || (n =? 32) || (n =? 160).

Fixpoint trimStart (s : jsstring) : jsstring :=
  match s with
  | [] => []
  | c :: s' => if isWhiteSpace c then trimStart s' else s
  end.

Definition trimEnd (s : jsstring) : jsstring := rev (trimStart (rev s)).

Definition trim (s : jsstring) : jsstring := trimEnd (trimStart s).

(** [toLowerCase] among the code units of the model: A-Z, and the
    capital letters U+00C0..U+00DE except the multiplication sign. *)
Definition lowerUnit (c : ascii) : ascii :=
  let n := nat_of_ascii c in
  if ((65 <=? n) && (n <=? 90))
     || ((192 <=? n) && (n <=? 222) && negb (n =? 215))
  then ascii_of_nat (n + 32) else c.

Definition toLowerCase (s : jsstring) : jsstring := map lowerUnit s.

(** [s.replace(/\/+$/, '')]: the leftmost match of the pattern is the
    whole final run of slashes, which is removed. *)
Fixpoint stripTrailingSlashes (s : jsstring) : jsstring :=
  match s with
  | [] => []
  | c :: s' =>
      match stripTrailingSlashes s' with
      | [] => if Ascii.eqb c "/"%char then [] else [c]
      | r => c :: r
      end
  end.

(** [`${n}`] for a non-negative integer. *)
Definition numberToString (n : N) : jsstring :=
  str (NilZero.string_of_uint (N.to_uint n)).

(** *** [Buffer.from(s).toString('base64')] *)

(** UTF-8 of the code units of the model. *)
Definition utf8Unit (c : ascii) : list ascii :=
  match c with
  | Ascii b0 b1 b2 b3 b4 b5 b6 false => [c]
  | Ascii b0 b1 b2 b3 b4 b5 b6 true =>
      [ Ascii b6 true false false false false true true;
        Ascii b0 b1 b2 b3 b4 b5 false true ]
  end.

Definition utf8 (s : jsstring) : list ascii := flat_map utf8Unit s.

(** The base64 alphabet, indexed by a 6-bit group given from its most
    significant bit. *)
Definition base64Alphabet : jsstring :=
  str "ABCDEFGHIJKLMNOPQRSTUVWXYZabcdefghijklmnopqrstuvwxyz0123456789+/".

Definition sextet (b5 b4 b3 b2 b1 b0 : bool) : ascii :=
  let v (b : bool) (w : nat) := if b then w else 0 in
  nth (v b5 32 + v b4 16 + v b3 8 + v b2 4 + v b1 2 + v b0 1)
      base64Alphabet "="%char.

Fixpoint base64 (bytes : list ascii) : jsstring :=
  match bytes with
  | [] => []
  | [Ascii a0 a1 a2 a3 a4 a5 a6 a7] =>
      [ sextet a7 a6 a5 a4 a3 a2;
        sextet a1 a0 false false false false;
        "="%char; "="%char ]
  | [Ascii a0 a1 a2 a3 a4 a5 a6 a7; Ascii b0 b1 b2 b3 b4 b5 b6 b7] =>
      [ sextet a7 a6 a5 a4 a3 a2;
        sextet a1 a0 b7 b6 b5 b4;
        sextet b3 b2 b1 b0 false false;
        "="%char ]
  | Ascii a0 a1 a2 a3 a4 a5 a6 a7 :: Ascii b0 b1 b2 b3 b4 b5 b6 b7
      :: Ascii c0 c1 c2 c3 c4 c5 c6 c7 :: rest =>
      sextet a7 a6 a5 a4 a3 a2
        :: sextet a1 a0 b7 b6 b5 b4
        :: sextet b3 b2 b1 b0 c7 c6
        :: sextet c5 c4 c3 c2 c1 c0
        :: base64 rest
  end.

Definition toBase64 (s : jsstring) : jsstring := base64 (utf8 s).

End JS.

Import JS.

(** ** core/errors.ts *)

Module Errors.

(** The part of the configuration the sanitizer reads. *)
Record Credentials := { cred_username : jsstring; cred_password : jsstring }.

Definition REDACTED : jsstring := str "[REDACTED]".

Definition sanitizeMessage (message : jsstring) (config : Credentials)
  : jsstring :=
  let sanitized := message in
  (* Replace password first *)
  let sanitized :=
    match cred_password config with
    | [] => sanitized
    | _ :: _ => replaceAll sanitized (cred_password config) REDACTED
    end in
  (* Replace username *)
  let sanitized :=
    match cred_username config with
    | [] => sanitized
    | _ :: _ => replaceAll sanitized (cred_username config) REDACTED
    end in
  (* Replace Base64-encoded auth string *)
  let base64Auth :=
    toBase64 (cred_username config ++ str ":" ++ cred_password config) in
  match base64Auth with
  | [] => sanitized
  | _ :: _ => replaceAll sanitized base64Auth REDACTED
  end.

End Errors.

Import Errors.

(** ** Values, thrown values and the effects of a call *)

Module Runtime.

(** The values handlers receive as arguments and the client returns
    ([unknown] in the sources).  Numbers are the integers. *)
#[local] Unset Elimination Schemes.
Inductive JsValue :=
| VUndefined
| VNull
| VBool (b : bool)
| VNumber (n : Z)
| VString (s : jsstring)
| VArray (items : list JsValue)
| VObject (fields : list (jsstring * JsValue)).
#[local] Set Elimination Schemes.

(** [!!v] *)
Definition truthy (v : JsValue) : bool :=
  match v with
  | VUndefined | VNull => false
  | VBool b => b
  | VNumber n => negb (Z.eqb n 0)
  | VString s => negb (str_eqb s [])
  | VArray _ | VObject _ => true
  end.

(** An [Error] object.  [isAdGuardError] is [err instanceof AdGuardError]. *)
Record JsError := {
  isAdGuardError : bool;
  name : jsstring;
  message : jsstring;
  statusCode : option N
}.

(** What a [throw] carries: an [Error], or some other value, given by its
    [String(...)] image. *)
Inductive Thrown :=
| ThrownError (e : JsError)
| ThrownOther (image : jsstring).

(** [new Error(message)] *)
Definition newError (message : jsstring) : JsError :=
  {| isAdGuardError := false; name := str "Error"; message := message;
     statusCode := None |}.

Inductive Completion (A : Type) :=
| Returned (a : A)
| Threw (e : Thrown).
Arguments Returned {A} a.
Arguments Threw {A} e.

(** A request handed to [fetch]. *)
Record Request := {
  req_method : jsstring;
  req_url : jsstring;
  req_headers : list (jsstring * jsstring);
  req_body : option jsstring
}.

(** A response, its body read. *)
Record Response := {
  status : N;
  statusText : jsstring;
  headers : list (jsstring * jsstring);
  body : jsstring
}.

(** [response.ok] *)
Definition ok (r : Response) : bool :=
  (200 <=? status r)%N && (status r <=? 299)%N.

(** [response.headers.get(name)]: names compare without case, the values
    of a repeated header are joined. *)
Definition headers_get (r : Response) (name : jsstring) : option jsstring :=
  match filter (fun h => str_eqb (toLowerCase (fst h)) (toLowerCase name))
               (headers r) with
  | [] => None
  | hs => Some (join (str ", ") (map snd hs))
  end.

(** The world of a call: the requests issued so far, oldest first. *)
Definition World := list Request.

(** What lies outside the repository: the JSON codec of the engine and the
    appliance behind [fetch].  A failure of [fetch] (no route, timeout
    after [REQUEST_TIMEOUT_MS], broken body) is a thrown value. *)
Class Platform := {
  JSON_parse : jsstring -> JsValue + jsstring;
  JSON_stringify : JsValue -> jsstring;
  network : World -> Request -> Response + Thrown;
  (** the empty text is not JSON *)
  JSON_parse_empty : forall v, JSON_parse [] <> inl v
}.

(** An asynchronous computation: it reads and extends the world and
    completes by returning or throwing. *)
Definition IO (A : Type) : Type := World -> Completion A * World.

Definition ret {A} (a : A) : IO A := fun w => (Returned a, w).

Definition throw {A} (e : Thrown) : IO A := fun w => (Threw e, w).

Definition bind {A B} (m : IO A) (k : A -> IO B) : IO B :=
  fun w =>
    match m w with
    | (Returned a, w') => k a w'
    | (Threw e, w') => (Threw e, w')
    end.

(** [try { m } catch (err) { h err }] *)
Definition tryCatch {A} (m : IO A) (h : Thrown -> IO A) : IO A :=
  fun w =>
    match m w with
    | (Returned a, w') => (Returned a, w')
    | (Threw e, w') => h e w'
    end.

(** [await fetch(url, init)] *)
Definition fetch `{Platform} (req : Request) : IO Response :=
  fun w =>
    (match network w req with
     | inl r => Returned r
     | inr e => Threw e
     end, w ++ [req]).

(** [await response.text()] *)
Definition text (r : Response) : IO jsstring := ret (body r).

(** [await response.json()] and [JSON.parse(text)] *)
Definition parseJSON `{Platform} (s : jsstring) : IO JsValue :=
  match JSON_parse s with
  | inl v => ret v
  | inr msg =>
      throw (ThrownError {| isAdGuardError := false;
                            name := str "SyntaxError";
                            message := msg; statusCode := None |})
  end.

(** [err instanceof Error ? err.message : String(err)] *)
Definition messageOf (err : Thrown) : jsstring :=
  match err with
  | ThrownError e => message e
  | ThrownOther image => image
  end.

(** [err instanceof AdGuardError] *)
Definition instanceofAdGuardError (err : Thrown) : bool :=
  match err with
  | ThrownError e => isAdGuardError e
  | ThrownOther _ => false
  end.

(** What the handler of a tool may throw.  The handlers are given from
    outside: besides the thrown values above, one may throw an [Error]
    whose [message] is not a string - the type of [Error] rules that out,
    the engine does not. *)
Inductive Raised :=
| RaisedThrown (t : Thrown)
| RaisedOddError (message : JsValue).

(** How the promise of a handler settles. *)
Inductive Settled (A : Type) :=
| Fulfilled (a : A)
| Rejected (r : Raised).
Arguments Fulfilled {A} a.
Arguments Rejected {A} r.

(** The run of a computation, read as the settling of a promise. *)
Definition settle {A} (run : Completion A * World) : Settled A * World :=
  match run with
  | (Returned a, w) => (Fulfilled a, w)
  | (Threw t, w) => (Rejected (RaisedThrown t), w)
  end.

End Runtime.

Import Runtime.

Declare Scope io_scope.
Delimit Scope io_scope with io.
Notation "x <- m ;; k" := (bind m (fun x => k))
  (at level 61, m at next level, right associativity) : io_scope.

(** ** types/index.ts *)

Module Types.

(** ['read-only' | 'full'] *)
Inductive AccessTier := ReadOnly | Full.

Definition AccessTier_eqb (a b : AccessTier) : bool :=
  match a, b with
  | ReadOnly, ReadOnly | Full, Full => true
  | _, _ => false
  end.

(** Category tags are strings at run time. *)
Definition ToolCategory := jsstring.

Definition VALID_CATEGORIES : list ToolCategory :=
  map str
    [ "global"; "dns"; "querylog"; "stats"; "filtering"; "safebrowsing";
      "parental"; "safesearch"; "clients"; "dhcp"; "rewrites"; "tls";
      "blocked_services"; "access"; "install"; "mobile_config" ]%string.

(** [categories = None] is [null]: no filter. *)
Record AppConfig := {
  url : jsstring;
  username : jsstring;
  password : jsstring;
  accessTier : AccessTier;
  categories : option (list ToolCategory);
  debug : bool;
  confirmDestructive : bool
}.

(** The view of the configuration that [sanitizeMessage] reads. *)
Definition credentials (config : AppConfig) : Credentials :=
  {| cred_username := username config; cred_password := password config |}.

(** An optional key of an object: not there, there with the value
    [undefined], or there with a value. *)
Inductive Key (A : Type) :=
| Absent
| Undefined
| Given (a : A).
Arguments Absent {A}.
Arguments Undefined {A}.
Arguments Given {A} a.

(** The SDK's [ToolAnnotations]. *)
Record ToolAnnotations := {
  title : Key jsstring;
  readOnlyHint : Key bool;
  destructiveHint : Key bool;
  idempotentHint : Key bool;
  openWorldHint : Key bool
}.

(** The arguments of a tool call: [args.field], [VUndefined] when absent. *)
Definition Args := jsstring -> JsValue.

(** The declared input fields (their zod types are not part of the model). *)
Definition InputSchema := list jsstring.

Record ToolRegistration := {
  reg_name : jsstring;
  reg_description : jsstring;
  reg_category : ToolCategory;
  reg_accessTier : AccessTier;
  reg_annotations : option ToolAnnotations;
  reg_inputSchema : InputSchema;
  reg_handler : Args -> World -> Settled jsstring * World
}.

(** A handler written with the computations of this model: it throws the
    thrown values of [Thrown] only. *)
Definition asHandler (h : Args -> IO jsstring)
  : Args -> World -> Settled jsstring * World :=
  fun args w => settle (h args w).

End Types.

Import Types.

Coercion credentials : AppConfig >-> Credentials.

(** ** core/errors.ts: the error class *)

Module ErrorClass.

(** [new AdGuardError(message, statusCode)] *)
Definition AdGuardError (message : jsstring) (statusCode : option N)
  : JsError :=
  {| isAdGuardError := true; name := str "AdGuardError";
     message := message; statusCode := statusCode |}.

(** [sanitizeMessage(m, config)] at run time, where [m] need not be a
    string.  The base64 text is never empty, so [replaceAll] is always
    called, and on a value that is not a string the first call throws a
    [TypeError]. *)
Definition sanitizeUnknown (m : JsValue) (config : Credentials)
  : Completion jsstring :=
  let typeError (text : jsstring) :=
    Threw (ThrownError
      {| isAdGuardError := false; name := str "TypeError";
         message := text; statusCode := None |}) in
  match m with
  | VString s => Returned (sanitizeMessage s config)
  | VUndefined =>
      typeError (str "Cannot read properties of undefined (reading 'replaceAll')")
  | VNull =>
      typeError (str "Cannot read properties of null (reading 'replaceAll')")
  | VBool _ | VNumber _ | VArray _ | VObject _ =>
      typeError (str "sanitized.replaceAll is not a function")
  end.

End ErrorClass.

Import ErrorClass.

(** ** core/config.ts *)

Module Config.

(** [process.env]: a variable is a string or is not set. *)
Record Env := {
  ADGUARD_URL : option jsstring;
  ADGUARD_USERNAME : option jsstring;
  ADGUARD_PASSWORD : option jsstring;
  ADGUARD_ACCESS_TIER : option jsstring;
  ADGUARD_CATEGORIES : option jsstring;
  DEBUG : option jsstring;
  ADGUARD_CONFIRM_DESTRUCTIVE : option jsstring
}.

(** Truth of [string | undefined]: set and not empty. *)
Definition isSet (v : option jsstring) : bool :=
  match v with
  | Some (_ :: _) => true
  | _ => false
  end.

(** [v!] where [v] is known to be set. *)
Definition the (v : option jsstring) : jsstring :=
  match v with
  | Some s => s
  | None => []
  end.

Definition quoted (c : jsstring) : jsstring :=
  "034"%char :: c ++ ["034"%char].

Definition loadConfig (env : Env) : Completion AppConfig :=
  let url := ADGUARD_URL env in
  let username := ADGUARD_USERNAME env in
  let password := ADGUARD_PASSWORD env in
  (* Validate required vars *)
  let missing :=
    (if negb (isSet url) then [str "ADGUARD_URL"] else [])
    ++ (if negb (isSet username) then [str "ADGUARD_USERNAME"] else [])
    ++ (if negb (isSet password) then [str "ADGUARD_PASSWORD"] else []) in
  if 0 <? List.length missing then
    Threw (ThrownError (newError
      (str "Missing required environment variables: "
       ++ join (str ", ") missing ++ str ". "
       ++ str "Set these variables to connect to your AdGuard Home instance.")))
  else
  (* Parse access tier *)
  let tierRaw := ADGUARD_ACCESS_TIER env in
  let tier : Completion AccessTier :=
    if isSet tierRaw then
      let normalized := trim (toLowerCase (the tierRaw)) in
      if str_eqb normalized (str "read-only") then Returned ReadOnly
      else if str_eqb normalized (str "full") then Returned Full
      else Threw (ThrownError (newError
             (str "Invalid ADGUARD_ACCESS_TIER: " ++ quoted (the tierRaw)
              ++ str ". Must be " ++ quoted (str "read-only") ++ str " or "
              ++ quoted (str "full") ++ str ".")))
    else Returned Full in
  match tier with
  | Threw e => Threw e
  | Returned accessTier =>
  (* Parse categories *)
  let categoriesRaw := ADGUARD_CATEGORIES env in
  let cats : Completion (option (list ToolCategory)) :=
    if isSet categoriesRaw then
      let parsed :=
        filter (fun c => 0 <? List.length c)
               (map (fun c => toLowerCase (trim c))
                    (split ","%char (the categoriesRaw))) in
      (* Validate each category *)
      let invalid :=
        filter (fun c => negb (existsb (str_eqb c) VALID_CATEGORIES))
               parsed in
      if 0 <? List.length invalid then
        Threw (ThrownError (newError
          (str "Invalid ADGUARD_CATEGORIES: "
           ++ join (str ", ") (map quoted invalid) ++ str ". "
           ++ str "Valid categories: "
           ++ join (str ", ") VALID_CATEGORIES)))
      else Returned (Some parsed)
    else Returned None in
  match cats with
  | Threw e => Threw e
  | Returned categories =>
  (* Parse debug flag *)
  let debug := isSet (DEBUG env) in
  (* Parse destructive confirmation flag *)
  let confirmDestructive :=
    match ADGUARD_CONFIRM_DESTRUCTIVE env with
    | Some v => str_eqb (toLowerCase v) (str "true")
    | None => false
    end in
  Returned
    {| url := stripTrailingSlashes (the url);
       username := the username;
       password := the password;
       accessTier := accessTier;
       categories := categories;
       debug := debug;
       confirmDestructive := confirmDestructive |}
  end
  end.

End Config.

Import Config.

(** ** core/auth.ts *)

Module Auth.

Definition createAuthHeader (username password : jsstring) : jsstring :=
  let encoded := toBase64 (username ++ str ":" ++ password) in
  str "Basic " ++ encoded.

End Auth.

Import Auth.

(** ** core/client.ts *)

Module Client.

Local Open Scope io_scope.

Record AdGuardClient := {
  config : AppConfig;
  authHeader : jsstring;
  baseUrl : jsstring
}.

(** [new AdGuardClient(config)] *)
Definition newAdGuardClient (config : AppConfig) : AdGuardClient :=
  {| config := config;
     authHeader := createAuthHeader (username config) (password config);
     baseUrl := url config ++ str "/control" |}.

Definition AUTH_FAILED : jsstring :=
  str "Authentication failed -- check ADGUARD_USERNAME and ADGUARD_PASSWORD".

(** [response.headers.get('content-type') || ''] *)
Definition contentTypeOf (response : Response) : jsstring :=
  match headers_get response (str "content-type") with
  | Some v => v
  | None => []
  end.

(** The text [`${verb} ${path} failed: ${status} ${statusText}`]. *)
Definition failedText (verb path : jsstring) (r : Response) : jsstring :=
  verb ++ str " " ++ path ++ str " failed: "
  ++ numberToString (status r) ++ str " " ++ statusText r.

Section Methods.

Context `{Platform}.
Variable this : AdGuardClient.

(** The [catch] block of [get], [post] and [getRaw]. *)
Definition rethrow {A} (err : Thrown) : IO A :=
  if instanceofAdGuardError err then throw err
  else throw (ThrownError
         (AdGuardError (sanitizeMessage (messageOf err) (config this))
                       None)).

Definition parseResponse (response : Response) : IO JsValue :=
  let contentType := contentTypeOf response in
  if includes contentType (str "json") then parseJSON (body response)
  else s <- text response ;; ret (VString s).

(** The request that [get] and [getRaw] issue for [path]. *)
Definition getRequest (path : jsstring) : Request :=
  {| req_method := str "GET";
     req_url := baseUrl this ++ str "/" ++ path;
     req_headers := [(str "Authorization", authHeader this)];
     req_body := None |}.

Definition get (path : jsstring) : IO JsValue :=
  tryCatch
    (response <- fetch (getRequest path) ;;
     if negb (ok response) then
       throw (ThrownError
         (AdGuardError
            (sanitizeMessage (failedText (str "GET") path response)
                             (config this))
            (Some (status response))))
     else parseResponse response)
    rethrow.

(** The request that [post] issues for [path] and [body]. *)
Definition postRequest (path : jsstring) (body : option JsValue)
  : Request :=
  {| req_method := str "POST";
     req_url := baseUrl this ++ str "/" ++ path;
     req_headers :=
       (str "Authorization", authHeader this)
       :: match body with
          | Some _ => [(str "Content-Type", str "application/json")]
          | None => []
          end;
     req_body := option_map JSON_stringify body |}.

Definition post (path : jsstring) (body : option JsValue) : IO JsValue :=
  tryCatch
    (response <- fetch (postRequest path body) ;;
     if negb (ok response) then
       throw (ThrownError
         (AdGuardError
            (sanitizeMessage (failedText (str "POST") path response)
                             (config this))
            (Some (status response))))
     else
     (* Some AdGuard POST endpoints return empty 200 *)
     let contentLength := headers_get response (str "content-length") in
     if match contentLength with
        | Some v => str_eqb v (str "0")
        | None => false
        end
     then ret (VString [])
     else
     (* Try to parse response body; return empty string if no body *)
     text <- text response ;;
     match text with
     | [] => ret (VString [])
     | _ :: _ =>
         (* Attempt JSON parse if content type suggests it *)
         let contentType := contentTypeOf response in
         if includes contentType (str "json") then
           tryCatch (parseJSON text) (fun _ => ret (VString text))
         else ret (VString text)
     end)
    rethrow.

Definition getRaw (path : jsstring) : IO jsstring :=
  tryCatch
    (response <- fetch (getRequest path) ;;
     if negb (ok response) then
       throw (ThrownError
         (AdGuardError
            (sanitizeMessage (failedText (str "GET") path response)
                             (config this))
            (Some (status response))))
     else text response)
    rethrow.

Definition validateConnection : IO unit :=
  tryCatch
    (response <- fetch (getRequest (str "status")) ;;
     if (status response =? 401)%N || (status response =? 403)%N then
       throw (ThrownError (AdGuardError AUTH_FAILED (Some (status response))))
     else if negb (ok response) then
       throw (ThrownError
         (AdGuardError
            (sanitizeMessage
               (str "Connection check failed: "
                ++ numberToString (status response) ++ str " "
                ++ statusText response)
               (config this))
            (Some (status response))))
     else ret tt)
    (fun err =>
       if instanceofAdGuardError err then throw err
       else throw (ThrownError
              (AdGuardError
                 (sanitizeMessage
                    (str "Cannot connect to AdGuard Home at "
                     ++ url (config this) ++ str ": " ++ messageOf err)
                    (config this))
                 None))).

End Methods.

End Client.

Import Client.

(** ** core/tools.ts *)

Module Tools.

(** A tool-call result: text blocks and the optional error mark. *)
Inductive ContentBlock := TextContent (text : jsstring).

Record CallToolResult := {
  content : list ContentBlock;
  isError : option bool
}.

(** What the server keeps of a registered tool. *)
Record RegisteredTool := {
  tool_name : jsstring;
  tool_description : jsstring;
  tool_inputSchema : InputSchema;
  tool_annotations : ToolAnnotations;
  tool_callback : Args -> IO CallToolResult
}.

(** The SDK's server and its [server.registerTool], which lie outside the
    repository: the call updates the server and returns, or throws. *)
Class Sdk := {
  McpServer : Type;
  server_registerTool :
    McpServer -> RegisteredTool -> Completion unit * McpServer
}.

(** [{ readOnlyHint: ..., destructiveHint: false, ...registration.annotations }]:
    a key that the descriptor's annotations have - be its value
    [undefined] - replaces the default. *)
Definition buildAnnotations (registration : ToolRegistration)
  : ToolAnnotations :=
  let over {A} (given base : Key A) : Key A :=
    match given with
    | Absent => base
    | Undefined => Undefined
    | Given v => Given v
    end in
  let readOnly :=
    Given (AccessTier_eqb (reg_accessTier registration) ReadOnly) in
  match reg_annotations registration with
  | None =>
      {| title := Absent; readOnlyHint := readOnly;
         destructiveHint := Given false;
         idempotentHint := Absent; openWorldHint := Absent |}
  | Some a =>
      {| title := title a;
         readOnlyHint := over (readOnlyHint a) readOnly;
         destructiveHint := over (destructiveHint a) (Given false);
         idempotentHint := idempotentHint a;
         openWorldHint := openWorldHint a |}
  end.

(** The callback handed to the server: the handler inside [try]/[catch].
    The [catch] block calls [sanitizeMessage] on the message of an
    [Error]; what that call throws leaves the callback. *)
Definition wrapHandler (registration : ToolRegistration) (config : AppConfig)
  : Args -> IO CallToolResult :=
  fun args w =>
    match reg_handler registration args w with
    | (Fulfilled result, w') =>
        (Returned {| content := [TextContent result]; isError := None |}, w')
    | (Rejected err, w') =>
        let message : Completion jsstring :=
          match err with
          | RaisedThrown (ThrownError e) =>
              sanitizeUnknown (VString (message e)) config
          | RaisedOddError m => sanitizeUnknown m config
          | RaisedThrown (ThrownOther _) =>
              Returned (str "An unknown error occurred")
          end in
        match message with
        | Returned message =>
            (Returned {| content := [TextContent message];
                         isError := Some true |}, w')
        | Threw t => (Threw t, w')
        end
    end.

(** The tool that [registerTool] hands to the server. *)
Definition toolOf (registration : ToolRegistration) (config : AppConfig)
  : RegisteredTool :=
  {| tool_name := reg_name registration;
     tool_description := reg_description registration;
     tool_inputSchema := reg_inputSchema registration;
     tool_annotations := buildAnnotations registration;
     tool_callback := wrapHandler registration config |}.

(** The logger writes to stderr only; its output is not part of the model. *)
Definition registerTool `{Sdk} (server : McpServer)
           (registration : ToolRegistration) (config : AppConfig)
  : Completion bool * McpServer :=
  (* Check access tier: skip write-only tools in read-only mode *)
  if AccessTier_eqb (accessTier config) ReadOnly
     && AccessTier_eqb (reg_accessTier registration) Full
  then (Returned false, server)
  else
  (* Check category filter: skip tools outside allowed categories *)
  if match categories config with
     | Some allowed =>
         negb (existsb (str_eqb (reg_category registration)) allowed)
     | None => false
     end
  then (Returned false, server)
  else
  (* Build annotations, register the tool with MCP server *)
  match server_registerTool server (toolOf registration config) with
  | (Threw e, server') => (Threw e, server')
  | (Returned _, server') => (Returned true, server')
  end.

End Tools.

Import Tools.

(** ** tools/stats.ts: the write tool [stats_reset] *)

Module Stats.

Local Open Scope io_scope.

Definition CONFIRM_PROMPT : jsstring :=
  str "This is a destructive operation that cannot be undone. Set confirm: true to proceed.".

Definition stats_reset_handler `{Platform} (client : AdGuardClient)
           (config : AppConfig) : Args -> IO jsstring :=
  fun args =>
    if confirmDestructive config && negb (truthy (args (str "confirm")))
    then ret CONFIRM_PROMPT
    else _ <- post client (str "stats_reset") None ;;
         ret (str "Statistics reset.").

Definition stats_reset `{Platform} (client : AdGuardClient)
           (config : AppConfig) : ToolRegistration :=
  {| reg_name := str "stats_reset";
     reg_description :=
       str "Reset all DNS statistics. This is a destructive operation that cannot be undone.";
     reg_category := str "stats";
     reg_accessTier := Full;
     reg_annotations := None;
     reg_inputSchema := [str "confirm"];
     reg_handler := asHandler (stats_reset_handler client config) |}.

End Stats.

Import Stats.

(** ** Vocabulary of the statements about texts *)

Module TextSpec.

Definition Prefix (q s : jsstring) : Prop := exists r, s = q ++ r.

(** [q] occurs in [s]. *)
Definition Infix (q s : jsstring) : Prop := exists l r, s = l ++ q ++ r.

(** [Clear rep o q]: the word [q] has no unit [o], and an occurrence of
    [q] in a text that starts with the replacement text [rep] lies behind
    it. *)
Definition Clear (rep : jsstring) (o : ascii) (q : jsstring) : Prop :=
  ~ In o q /\ forall x, Infix q (rep ++ x) -> Infix q x.

(** A credential that cannot meet the marker: it has no bracket and is
    not a piece of the word between the brackets (so it is not empty). *)
Definition avoidsMarker (q : jsstring) : bool :=
  negb (includes q (str "[")) && negb (includes q (str "]"))
  && negb (includes (str "REDACTED") q).

End TextSpec.

Import TextSpec.

(** ** Vocabulary of the statements about [loadConfig] *)

Module ConfigSpec.

(** The environment with [ADGUARD_CATEGORIES] set to [v] (or not set). *)
Definition withCategories (env : Env) (v : option jsstring) : Env :=
  {| ADGUARD_URL := ADGUARD_URL env;
     ADGUARD_USERNAME := ADGUARD_USERNAME env;
     ADGUARD_PASSWORD := ADGUARD_PASSWORD env;
     ADGUARD_ACCESS_TIER := ADGUARD_ACCESS_TIER env;
     ADGUARD_CATEGORIES := v;
     DEBUG := DEBUG env;
     ADGUARD_CONFIRM_DESTRUCTIVE := ADGUARD_CONFIRM_DESTRUCTIVE env |}.

(** The configuration with the category list [v]. *)
Definition allowing (config : AppConfig) (v : option (list ToolCategory))
  : AppConfig :=
  {| url := url config;
     username := username config;
     password := password config;
     accessTier := accessTier config;
     categories := v;
     debug := debug config;
     confirmDestructive := confirmDestructive config |}.

(** A text of commas and white space only. *)
Definition blankList (raw : jsstring) : Prop :=
  Forall (fun c => c = ","%char \/ isWhiteSpace c = true) raw.

End ConfigSpec.

Import ConfigSpec.

(** ** A concrete engine, appliance and server, for the worked examples *)

Module Demo.

(** A JSON reader that knows two documents. *)
Definition parse (s : jsstring) : JsValue + jsstring :=
  if str_eqb s (str "{}") then inl (VObject [])
  else if str_eqb s (str "true") then inl (VBool true)
  else inr (str "Unexpected token").

Definition parse_empty (v : JsValue) : parse [] <> inl v :=
  fun E =>
    match E in _ = y return match y with inl _ => False | inr _ => True end
    with eq_refl => I end.

(** An appliance that gives the same answer to every request. *)
Definition answering (answer : Response + Thrown) : Platform :=
  {| JSON_parse := parse;
     JSON_stringify := fun _ => str "{}";
     network := fun _ _ => answer;
     JSON_parse_empty := parse_empty |}.

Definition response (status : N) (contentType : jsstring)
           (more : list (jsstring * jsstring)) (body : jsstring)
  : Response :=
  {| status := status; statusText := [];
     headers := (str "Content-Type", contentType) :: more;
     body := body |}.

(** An appliance that answers every request with [r]. *)
Definition replying (r : Response) : Platform := answering (inl r).

(** An appliance that cannot be reached. *)
Definition unreachable : Platform :=
  answering (inr (ThrownError (newError (str "fetch failed")))).

(** A server that keeps the registered tools and refuses a name it has. *)
Definition listServer : Sdk :=
  {| McpServer := list RegisteredTool;
     server_registerTool := fun server tool =>
       if existsb (fun t => str_eqb (tool_name t) (tool_name tool)) server
       then (Threw (ThrownError (newError
               (str "Tool " ++ tool_name tool
                ++ str " is already registered"))), server)
       else (Returned tt, server ++ [tool]) |}.

Definition config : AppConfig :=
  {| url := str "http://adguard.local";
     username := str "admin";
     password := str "hunter2";
     accessTier := Full;
     categories := Some [str "dns"; str "stats"];
     debug := false;
     confirmDestructive := true |}.

Definition env : Env :=
  {| ADGUARD_URL := Some (str "http://adguard.local//");
     ADGUARD_USERNAME := Some (str "admin");
     ADGUARD_PASSWORD := Some (str "hunter2");
     ADGUARD_ACCESS_TIER := Some (str " Read-Only ");
     ADGUARD_CATEGORIES := Some (str "DNS, stats,");
     DEBUG := None;
     ADGUARD_CONFIRM_DESTRUCTIVE := Some (str "TRUE") |}.

(** What [loadConfig] makes of [env]. *)
Definition loaded : AppConfig :=
  {| url := str "http://adguard.local";
     username := str "admin";
     password := str "hunter2";
     accessTier := ReadOnly;
     categories := Some [str "dns"; str "stats"];
     debug := false;
     confirmDestructive := true |}.

Definition noArgs : Args := fun _ => VUndefined.

(** A descriptor whose handler throws an [Error] with the number 42 for
    its message: [const e = new Error('x'); e.message = 42; throw e]. *)
Definition oddTool : ToolRegistration :=
  {| reg_name := str "odd";
     reg_description := str "a tool";
     reg_category := str "dns";
     reg_accessTier := ReadOnly;
     reg_annotations := None;
     reg_inputSchema := [];
     reg_handler := fun _ w => (Rejected (RaisedOddError (VNumber 42)), w) |}.

(** A descriptor whose handler answers [ok]. *)
Definition descriptor (name : jsstring) (category : ToolCategory)
           (tier : AccessTier) : ToolRegistration :=
  {| reg_name := name;
     reg_description := str "a tool";
     reg_category := category;
     reg_accessTier := tier;
     reg_annotations := None;
     reg_inputSchema := [];
     reg_handler := asHandler (fun _ => ret (str "ok")) |}.

End Demo.

(** ** core/errors.ts: [createSafeError] *)

Module SafeError.

(** A caught value ([unknown]) as [createSafeError] tells it apart: an
    [Error] - with a string for its message, or with some other value -, a
    string, or anything else. *)
Inductive Caught :=
| CaughtError (e : JsError)
| CaughtOddError (name : jsstring) (message : JsValue)
| CaughtString (s : jsstring)
| CaughtOther.

(** The result is made by [new Error]: it is no [AdGuardError] and has no
    status code; for an [Error] the name is copied.  What [sanitizeMessage]
    throws on a message that is not a string leaves the function. *)
Definition createSafeError (err : Caught) (config : Credentials)
  : Completion JsError :=
  let wrap (name : jsstring) (m : JsValue) :=
    match sanitizeUnknown m config with
    | Returned sanitized =>
        Returned {| isAdGuardError := false; name := name;
                    message := sanitized; statusCode := None |}
    | Threw t => Threw t
    end in
  match err with
  | CaughtError e => wrap (name e) (VString (message e))
  | CaughtOddError name m => wrap name m
  | CaughtString s => Returned (newError (sanitizeMessage s config))
  | CaughtOther => Returned (newError (str "An unknown error occurred"))
  end.

End SafeError.

Import SafeError.

(** ** The handlers of the tools that only call the client *)

Module Handlers.

Local Open Scope io_scope.

(** [a || b] *)
Definition orElse (a b : JsValue) : JsValue := if truthy a then a else b.

(** [v.key] for a key that no prototype defines: reading a property of
    [undefined] or [null] throws a [TypeError], a missing property is
    [undefined]. *)
Definition getProp (v : JsValue) (key : jsstring) : IO JsValue :=
  let typeError (what : jsstring) :=
    throw (ThrownError
      {| isAdGuardError := false; name := str "TypeError";
         message := str "Cannot read properties of " ++ what
                    ++ str " (reading '" ++ key ++ str "')";
         statusCode := None |}) in
  match v with
  | VUndefined => typeError (str "undefined")
  | VNull => typeError (str "null")
  | VObject fields =>
      ret match find (fun f => str_eqb (fst f) key) fields with
          | Some f => snd f
          | None => VUndefined
          end
  | VBool _ | VNumber _ | VString _ | VArray _ => ret VUndefined
  end.

Section WithClient.

Context `{Platform}.
Variable client : AdGuardClient.
Variable config : AppConfig.

(** tools/global.ts (query log part): [querylog_clear] *)
Definition querylog_clear_handler : Args -> IO jsstring :=
  fun args =>
    if confirmDestructive config && negb (truthy (args (str "confirm")))
    then ret CONFIRM_PROMPT
    else _ <- post client (str "querylog_clear") None ;;
         ret (str "Query log cleared.").

(** tools/dhcp.ts: [dhcp_reset] *)
Definition dhcp_reset_handler : Args -> IO jsstring :=
  fun args =>
    if confirmDestructive config && negb (truthy (args (str "confirm")))
    then ret CONFIRM_PROMPT
    else _ <- post client (str "dhcp/reset") (Some (VObject [])) ;;
         ret (str "DHCP configuration reset to defaults.").

(** tools/dhcp.ts: [dhcp_reset_leases] *)
Definition dhcp_reset_leases_handler : Args -> IO jsstring :=
  fun args =>
    if confirmDestructive config && negb (truthy (args (str "confirm")))
    then ret CONFIRM_PROMPT
    else _ <- post client (str "dhcp/reset_leases") (Some (VObject [])) ;;
         ret (str "All DHCP leases cleared.").

(** tools/dns.ts: [dns_clear_cache] *)
Definition dns_clear_cache_handler : Args -> IO jsstring :=
  fun _ =>
    _ <- post client (str "cache_clear") None ;;
    ret (str "DNS cache cleared.").

(** tools/parental.ts: [parental_get_status]; the field is [enable]. *)
Definition parental_get_status_handler : Args -> IO jsstring :=
  fun _ =>
    data <- get client (str "parental/status") ;;
    enable <- getProp data (str "enable") ;;
    ret (str "Parental Filtering: "
         ++ if truthy enable then str "enabled" else str "disabled").

(** tools/parental.ts: [parental_set] *)
Definition parental_set_handler : Args -> IO jsstring :=
  fun args =>
    let enabled := args (str "enabled") in
    let endpoint :=
      if truthy enabled then str "parental/enable"
      else str "parental/disable" in
    _ <- post client endpoint None ;;
    ret (if truthy enabled then str "Parental filtering enabled."
         else str "Parental filtering disabled.").

(** tools/safebrowsing.ts: [safebrowsing_get_status] *)
Definition safebrowsing_get_status_handler : Args -> IO jsstring :=
  fun _ =>
    data <- get client (str "safebrowsing/status") ;;
    enabled <- getProp data (str "enabled") ;;
    ret (str "Safe Browsing: "
         ++ if truthy enabled then str "enabled" else str "disabled").

(** tools/safebrowsing.ts: [safebrowsing_set] *)
Definition safebrowsing_set_handler : Args -> IO jsstring :=
  fun args =>
    let enabled := args (str "enabled") in
    let endpoint :=
      if truthy enabled then str "safebrowsing/enable"
      else str "safebrowsing/disable" in
    _ <- post client endpoint None ;;
    ret (if truthy enabled then str "Safe browsing enabled."
         else str "Safe browsing disabled.").

(** tools/rewrites.ts: [rewrites_delete] *)
Definition rewrites_delete_handler : Args -> IO jsstring :=
  fun args =>
    let domain := args (str "domain") in
    let answer := args (str "answer") in
    _ <- post client (str "rewrite/delete")
              (Some (VObject [(str "domain", domain); (str "answer", answer)])) ;;
    ret (str "Rewrite deleted.").

(** tools/rewrites.ts: [rewrites_update] *)
Definition rewrites_update_handler : Args -> IO jsstring :=
  fun args =>
    let domain := args (str "domain") in
    let answer := args (str "answer") in
    let newDomain := orElse (args (str "new_domain")) domain in
    let newAnswer := orElse (args (str "new_answer")) answer in
    (* Remove existing rule, then add updated one *)
    _ <- post client (str "rewrite/delete")
              (Some (VObject [(str "domain", domain); (str "answer", answer)])) ;;
    _ <- post client (str "rewrite/add")
              (Some (VObject [(str "domain", newDomain);
                              (str "answer", newAnswer)])) ;;
    ret (str "Rewrite updated.").

(** tools/dhcp.ts: [dhcp_update_static_lease] *)
Definition dhcp_update_static_lease_handler : Args -> IO jsstring :=
  fun args =>
    let mac := args (str "mac") in
    let ip := args (str "ip") in
    let hostname := args (str "hostname") in
    let newMac := orElse (args (str "new_mac")) mac in
    let newIp := orElse (args (str "new_ip")) ip in
    let newHostname := orElse (args (str "new_hostname")) hostname in
    (* Remove existing lease, then add updated one *)
    _ <- post client (str "dhcp/remove_static_lease")
              (Some (VObject [(str "mac", mac); (str "ip", ip);
                              (str "hostname", hostname)])) ;;
    _ <- post client (str "dhcp/add_static_lease")
              (Some (VObject [(str "mac", newMac); (str "ip", newIp);
                              (str "hostname", newHostname)])) ;;
    ret (str "Static lease updated.").

(** [v !== undefined] *)
Definition isDefined (v : JsValue) : bool :=
  match v with
  | VUndefined => false
  | _ => true
  end.

(** tools/stats.ts: [stats_set_config]; the body gets the fields that are
    given, in this order. *)
Definition stats_set_config_handler : Args -> IO jsstring :=
  fun args =>
    let field (key : jsstring) :=
      if isDefined (args key) then [(key, args key)] else [] in
    let body :=
      VObject (field (str "enabled") ++ field (str "interval")
               ++ field (str "ignored")) in
    _ <- post client (str "stats/config/update") (Some body) ;;
    ret (str "Statistics configuration updated.").

(** The descriptors of the write tools above, as they are registered. *)
Definition writeTool (name category : jsstring) (inputSchema : InputSchema)
           (handler : Args -> IO jsstring) (description : jsstring)
  : ToolRegistration :=
  {| reg_name := name;
     reg_description := description;
     reg_category := category;
     reg_accessTier := Full;
     reg_annotations := None;
     reg_inputSchema := inputSchema;
     reg_handler := asHandler handler |}.

Definition writeTools : list ToolRegistration :=
  [ stats_reset client config;
    writeTool (str "stats_set_config") (str "stats")
      [str "enabled"; str "interval"; str "ignored"]
      stats_set_config_handler
      (str "Update statistics configuration. All fields are optional -- only provided fields are changed.");
    writeTool (str "querylog_clear") (str "querylog") [str "confirm"]
      querylog_clear_handler
      (str "Clear the entire DNS query log. This is a destructive operation that cannot be undone.");
    writeTool (str "dhcp_reset") (str "dhcp") [str "confirm"]
      dhcp_reset_handler
      (str "Reset DHCP configuration to defaults (destructive -- may require confirmation)");
    writeTool (str "dhcp_reset_leases") (str "dhcp") [str "confirm"]
      dhcp_reset_leases_handler
      (str "Clear all DHCP leases (destructive -- may require confirmation)");
    writeTool (str "dhcp_update_static_lease") (str "dhcp")
      [str "mac"; str "ip"; str "hostname"; str "new_mac"; str "new_ip";
       str "new_hostname"]
      dhcp_update_static_lease_handler
      (str "Update a static DHCP lease (removes existing lease and adds a new one)");
    writeTool (str "dns_clear_cache") (str "dns") []
      dns_clear_cache_handler (str "Clear the DNS resolver cache");
    writeTool (str "parental_set") (str "parental") [str "enabled"]
      parental_set_handler
      (str "Enable or disable parental filtering (content restrictions)");
    writeTool (str "safebrowsing_set") (str "safebrowsing") [str "enabled"]
      safebrowsing_set_handler
      (str "Enable or disable safe browsing (malware/phishing protection)");
    writeTool (str "rewrites_delete") (str "rewrites")
      [str "domain"; str "answer"] rewrites_delete_handler
      (str "Delete a DNS rewrite rule (both domain and answer must match)");
    writeTool (str "rewrites_update") (str "rewrites")
      [str "domain"; str "answer"; str "new_domain"; str "new_answer"]
      rewrites_update_handler
      (str "Update a DNS rewrite rule (removes existing rule and adds updated one)") ].

End WithClient.

End Handlers.

Import Handlers.

(** ** Vocabulary of the further statements *)

Module MoreSpec.

(** [s] contains none of the three credential texts of [config]. *)
Definition credentialFree (config : Credentials) (s : jsstring) : bool :=
  negb (includes s (cred_username config))
  && negb (includes s (cred_password config))
  && negb (includes s (toBase64 (cred_username config ++ str ":"
                                 ++ cred_password config))).

(** The engine's [fetch] throws its own errors, never an [AdGuardError]. *)
Definition foreignFailures `{Platform} : Prop :=
  forall w req e, network w req = inr e -> instanceofAdGuardError e = false.

(** The configuration with the access tier [tier]. *)
Definition withTier (config : AppConfig) (tier : AccessTier) : AppConfig :=
  {| url := url config;
     username := username config;
     password := password config;
     accessTier := tier;
     categories := categories config;
     debug := debug config;
     confirmDestructive := confirmDestructive config |}.

(** What [post] and [get] do on the answer of the appliance. *)
Definition answersOk `{Platform} (w : World) (req : Request) : bool :=
  match network w req with
  | inl r => ok r
  | inr _ => false
  end.

(** The run [run] of a handler at the world [w] issues the one request
    [req] and returns [done] exactly when the answer is 2xx; otherwise it
    throws an [Error]. *)
Definition postsOnce `{Platform} (run : Completion jsstring * World)
           (w : World) (req : Request) (done : jsstring) : Prop :=
  snd run = w ++ [req]
  /\ (fst run = Returned done <-> answersOk w req = true)
  /\ (answersOk w req = false -> exists e, fst run = Threw (ThrownError e)).

(** The run [run] of a handler at [w] first issues [del]; if that is
    refused it throws and issues nothing else; otherwise it issues [add]
    and returns [done] if that is answered with 2xx, and throws if not -
    after which nothing more is issued. *)
Definition deletesThenAdds `{Platform} (run : Completion jsstring * World)
           (w : World) (del add : Request) (done : jsstring) : Prop :=
  (answersOk w del = false ->
   snd run = w ++ [del] /\ exists e, fst run = Threw (ThrownError e))
  /\ (answersOk w del = true ->
      snd run = w ++ [del; add]
      /\ (answersOk (w ++ [del]) add = true -> fst run = Returned done)
      /\ (answersOk (w ++ [del]) add = false ->
          exists e, fst run = Threw (ThrownError e))).

End MoreSpec.

Import MoreSpec.

(* ================================================================== *)
(** * Part II: lemmas and theorems                                     *)
(* ================================================================== *)

(** ** The string primitives on examples *)

Example toBase64_user_pass : toBase64 (str "user:pass") = str "dXNlcjpwYXNz".
Proof. reflexivity. Qed.

Example toBase64_padding :
  toBase64 (str "a:b1") = str "YTpiMQ=="
  /\ toBase64 (str "ab:cd") = str "YWI6Y2Q=".
Proof. split; reflexivity. Qed.

Example replaceAll_leftmost :
  replaceAll (str "aaa") (str "aa") (str "-") = str "-a"
  /\ replaceAll (str "abc") [] (str "-") = str "-a-b-c-".
Proof. split; reflexivity. Qed.

Example split_trim :
  map trim (split ","%char (str "dns, stats ,")) = [str "dns"; str "stats"; []].
Proof. reflexivity. Qed.

Example sanitizeMessage_example :
  sanitizeMessage (str "login admin:hunter2 failed (YWRtaW46aHVudGVyMg==)")
                  Demo.config
  = str "login [REDACTED]:[REDACTED] failed ([REDACTED])".
Proof. reflexivity. Qed.

(** ** Substrings *)

Lemma startsWith_Prefix (q s : jsstring) :
  startsWith q s = true <-> Prefix q s.
Proof.
  revert s; induction q as [|a q IH]; intros s; simpl.
  - split; [intros _; now exists s | reflexivity].
  - destruct s as [|b s].
    + split; [discriminate | intros [r Hr]; discriminate].
    + rewrite andb_true_iff, Ascii.eqb_eq, IH. split.
      * intros [-> [r ->]]. now exists r.
      * intros [r Hr]. injection Hr as -> ->. split; [reflexivity | now exists r].
Qed.

Lemma Infix_nil_r (q : jsstring) : Infix q [] -> q = [].
Proof.
  intros (l & r & H). symmetry in H.
  apply app_eq_nil in H as [_ H]. now apply app_eq_nil in H.
Qed.

Lemma Infix_cons_inv (q : jsstring) (a : ascii) (s : jsstring) :
  Infix q (a :: s) -> Prefix q (a :: s) \/ Infix q s.
Proof.
  intros ([|b l] & r & H); simpl in H.
  - left. now exists r.
  - right. injection H as _ ->. now exists l, r.
Qed.

Lemma Prefix_Infix (q s : jsstring) : Prefix q s -> Infix q s.
Proof. intros [r ->]. now exists [], r. Qed.

Lemma Infix_cons (q : jsstring) (a : ascii) (s : jsstring) :
  Infix q s -> Infix q (a :: s).
Proof. intros (l & r & ->). now exists (a :: l), r. Qed.

Lemma Infix_app_r (q t s : jsstring) : Infix q s -> Infix q (t ++ s).
Proof. induction t; simpl; auto using Infix_cons. Qed.

Lemma Infix_app_l (q s t : jsstring) : Infix q s -> Infix q (s ++ t).
Proof.
  intros (l & r & ->). exists l, (r ++ t). now rewrite <- !app_assoc.
Qed.

Lemma Infix_In (q s : jsstring) (c : ascii) : Infix q s -> In c q -> In c s.
Proof.
  intros (l & r & ->) H. apply in_or_app. right. apply in_or_app. now left.
Qed.

Lemma includes_Infix (s q : jsstring) : includes s q = true <-> Infix q s.
Proof.
  induction s as [|a s IH]; simpl.
  - rewrite orb_false_r, startsWith_Prefix. split.
    + apply Prefix_Infix.
    + intros H. apply Infix_nil_r in H. subst. now exists [].
  - rewrite orb_true_iff, startsWith_Prefix, IH. split.
    + intros [H | H]; [now apply Prefix_Infix | now apply Infix_cons].
    + apply Infix_cons_inv.
Qed.

Lemma includes_false_Infix (s q : jsstring) :
  includes s q = false <-> ~ Infix q s.
Proof.
  rewrite <- includes_Infix. destruct (includes s q); split; congruence.
Qed.

(** A word without the unit [c] that starts before [c] ends before it. *)
Lemma Prefix_before (c : ascii) (q u r : jsstring) :
  ~ In c q -> Prefix q (u ++ c :: r) -> Prefix q u.
Proof.
  revert u; induction q as [|a q IH]; intros u Hc H.
  - now exists u.
  - destruct H as [t H]. destruct u as [|b u]; simpl in H.
    + injection H as -> _. exfalso. apply Hc. now left.
    + injection H as -> H.
      destruct (IH u) as [t' ->].
      * intros Hin. apply Hc. now right.
      * now exists t.
      * now exists t'.
Qed.

(** An occurrence of a word without the unit [c] lies on one side of [c]. *)
Lemma Infix_split (c : ascii) (q l r : jsstring) :
  ~ In c q -> Infix q (l ++ c :: r) -> Infix q l \/ Infix q r.
Proof.
  intros Hc. induction l as [|a l IH]; simpl; intros H.
  - apply Infix_cons_inv in H as [[t H] | H]; [|now right].
    destruct q as [|b q]; [left; now exists [], [] |].
    injection H as -> _. exfalso. apply Hc. now left.
  - apply Infix_cons_inv in H as [H | H].
    + left. apply Prefix_Infix.
      change (a :: l ++ c :: r) with ((a :: l) ++ c :: r) in H.
      eapply Prefix_before; eauto.
    + destruct (IH H) as [H' | H']; [left; now apply Infix_cons | now right].
Qed.

(** ** [replaceAll] with a non-empty pattern *)

Section ReplaceAll.

Variable (a0 : ascii) (pat0 rep : jsstring).

Let pat : jsstring := a0 :: pat0.
Let R (s : jsstring) : jsstring := replaceAll s pat rep.

Lemma replaceAll_from_skipn (k : nat) (s : jsstring) :
  replaceAll_from pat rep k s = replaceAll_from pat rep 0 (skipn k s).
Proof.
  revert s; induction k as [|k IH]; intros [|c s]; simpl; auto.
Qed.

Lemma replaceAll_nil : R [] = [].
Proof. reflexivity. Qed.

Lemma replaceAll_match (t : jsstring) : R (pat ++ t) = rep ++ R t.
Proof.
  unfold R, replaceAll, pat. simpl app.
  assert (Hp : startsWith (a0 :: pat0) (a0 :: pat0 ++ t) = true).
  { apply startsWith_Prefix. now exists t. }
  unfold replaceAll_from at 1; fold replaceAll_from. rewrite Hp.
  rewrite replaceAll_from_skipn.
  replace (List.length (a0 :: pat0) - 1) with (List.length pat0)
    by (simpl; lia).
  rewrite skipn_app, skipn_all, Nat.sub_diag. reflexivity.
Qed.

Lemma replaceAll_nomatch (c : ascii) (s : jsstring) :
  ~ Prefix pat (c :: s) -> R (c :: s) = c :: R s.
Proof.
  intros H. unfold R, replaceAll, pat.
  unfold replaceAll_from at 1; fold replaceAll_from.
  destruct (startsWith (a0 :: pat0) (c :: s)) eqn:E; [|reflexivity].
  exfalso. apply H. now apply startsWith_Prefix.
Qed.

(** Induction along the scan: an occurrence at the front is replaced and
    the scan resumes behind it; otherwise one unit is copied. *)
Lemma replaceAll_scan_ind (P : jsstring -> jsstring -> Prop) :
  P [] [] ->
  (forall t, P t (R t) -> P (pat ++ t) (rep ++ R t)) ->
  (forall c s, ~ Prefix pat (c :: s) -> P s (R s) -> P (c :: s) (c :: R s)) ->
  forall s, P s (R s).
Proof.
  intros Hnil Hmatch Hcopy s.
  remember (List.length s) as n eqn:Hn. revert s Hn.
  induction n as [n IH] using lt_wf_ind. intros [|c s] Hn.
  - apply Hnil.
  - destruct (startsWith pat (c :: s)) eqn:E.
    + apply startsWith_Prefix in E as [t E]. rewrite E, replaceAll_match.
      apply Hmatch. apply (IH (List.length t)); [|reflexivity].
      subst n. rewrite E, length_app. unfold pat. simpl. lia.
    + assert (Hno : ~ Prefix pat (c :: s)).
      { rewrite <- startsWith_Prefix. congruence. }
      rewrite (replaceAll_nomatch c s Hno). apply Hcopy; [exact Hno|].
      apply (IH (List.length s)); [subst n; simpl; lia | reflexivity].
  Qed.

(** A pattern that does not occur leaves the text as it is. *)
Lemma replaceAll_absent (s : jsstring) : ~ Infix pat s -> R s = s.
Proof.
  pattern s, (R s). apply replaceAll_scan_ind; clear s.
  - reflexivity.
  - intros t _ H. exfalso. apply H. exists [], t. reflexivity.
  - intros c s _ IH H. f_equal. apply IH. intros Hs. apply H.
    now apply Infix_cons.
Qed.

(** From here on the replacement text starts with a unit [o]. *)
Variable (o : ascii) (rep0 : jsstring).
Hypothesis rep_eq : rep = o :: rep0.

Lemma replaceAll_Prefix (s q : jsstring) :
  ~ In o q -> Prefix q (R s) -> Prefix q s.
Proof.
  revert q. pattern s, (R s). apply replaceAll_scan_ind; clear s.
  - auto.
  - intros t _ [|b q] Ho [r Hr]; [now exists (pat ++ t)|].
    rewrite rep_eq in Hr. injection Hr as -> _.
    exfalso. apply Ho. now left.
  - intros c s _ IH [|b q] Ho [r Hr]; [now exists (c :: s)|].
    injection Hr as -> Hr.
    destruct (IH q) as [r' ->].
    + intros Hin. apply Ho. now right.
    + now exists r.
    + now exists r'.
Qed.

Lemma replaceAll_Infix (s q : jsstring) :
  Clear rep o q -> Infix q (R s) -> Infix q s.
Proof.
  intros [Ho Hc]. pattern s, (R s). apply replaceAll_scan_ind; clear s.
  - auto.
  - intros t IH H. apply Infix_app_r. auto.
  - intros c s Hno IH H. apply Infix_cons_inv in H as [H | H].
    + apply Prefix_Infix. rewrite <- (replaceAll_nomatch c s Hno) in H.
      now apply replaceAll_Prefix.
    + apply Infix_cons. auto.
Qed.

Lemma replaceAll_removes (s : jsstring) :
  Clear rep o pat -> ~ Infix pat (R s).
Proof.
  intros [Ho Hc]. pattern s, (R s). apply replaceAll_scan_ind; clear s.
  - intros H. apply Infix_nil_r in H. discriminate.
  - intros t IH H. auto.
  - intros c s Hno IH H. apply Infix_cons_inv in H as [H | H]; [|auto].
    apply Hno. rewrite <- (replaceAll_nomatch c s Hno) in H.
    now apply replaceAll_Prefix.
Qed.

End ReplaceAll.

(** ** The base64 text of [username:password] *)

(** Membership in an explicit list. *)
Ltac in_list := simpl; repeat (first [left; reflexivity | right]).

Lemma sextet_not_bracket (b5 b4 b3 b2 b1 b0 : bool) :
  sextet b5 b4 b3 b2 b1 b0 <> "["%char /\ sextet b5 b4 b3 b2 b1 b0 <> "]"%char.
Proof.
  destruct b5, b4, b3, b2, b1, b0; split; discriminate.
Qed.

(** Induction three bytes at a time, as the encoder reads them. *)
Lemma triples_ind (P : list ascii -> Prop) :
  P [] -> (forall a, P [a]) -> (forall a b, P [a; b]) ->
  (forall a b c rest, P rest -> P (a :: b :: c :: rest)) ->
  forall bytes, P bytes.
Proof.
  intros H0 H1 H2 H3.
  assert (H : forall bytes, P bytes /\ (forall a, P (a :: bytes))
                            /\ (forall a b, P (a :: b :: bytes))).
  { induction bytes as [|c rest (IH0 & IH1 & IH2)]; auto. }
  intros bytes. apply H.
Qed.

Lemma base64_no_bracket (bytes : list ascii) (c : ascii) :
  In c (base64 bytes) -> c <> "["%char /\ c <> "]"%char.
Proof.
  revert c. induction bytes as [|a|a b|a b d rest IH] using triples_ind;
    intros c H.
  - destruct H.
  - destruct a as [a0 a1 a2 a3 a4 a5 a6 a7]. simpl in H.
    destruct H as [<- | [<- | [<- | [<- | []]]]];
      try apply sextet_not_bracket; split; discriminate.
  - destruct a as [a0 a1 a2 a3 a4 a5 a6 a7], b as [b0 b1 b2 b3 b4 b5 b6 b7].
    simpl in H.
    destruct H as [<- | [<- | [<- | [<- | []]]]];
      try apply sextet_not_bracket; split; discriminate.
  - destruct a as [a0 a1 a2 a3 a4 a5 a6 a7], b as [b0 b1 b2 b3 b4 b5 b6 b7],
      d as [d0 d1 d2 d3 d4 d5 d6 d7].
    change (In c (sextet a7 a6 a5 a4 a3 a2 :: sextet a1 a0 b7 b6 b5 b4
                  :: sextet b3 b2 b1 b0 d7 d6 :: sextet d5 d4 d3 d2 d1 d0
                  :: base64 rest)) in H.
    destruct H as [<- | [<- | [<- | [<- | H]]]];
      try apply sextet_not_bracket. now apply IH.
Qed.

(** A colon among the bytes shows in the encoding as one of [O], [o], [p],
    [q], [r] or [6], according to its place in its group of three. *)
Lemma base64_colon (bytes : list ascii) :
  In ":"%char bytes ->
  exists c, In c (base64 bytes) /\ In c (str "Oopqr6").
Proof.
  induction bytes as [|a|a b|a b d rest IH] using triples_ind; intros H.
  - destruct H.
  - destruct H as [-> | []]. exists "O"%char. simpl. auto.
  - destruct H as [-> | [-> | []]].
    + destruct b as [b0 b1 b2 b3 b4 b5 b6 b7]. exists "O"%char. simpl. auto.
    + destruct a as [a0 a1 a2 a3 a4 a5 a6 a7]. exists "o"%char. simpl. auto.
  - destruct a as [a0 a1 a2 a3 a4 a5 a6 a7], b as [b0 b1 b2 b3 b4 b5 b6 b7],
      d as [d0 d1 d2 d3 d4 d5 d6 d7].
    change (base64 (Ascii a0 a1 a2 a3 a4 a5 a6 a7
                    :: Ascii b0 b1 b2 b3 b4 b5 b6 b7
                    :: Ascii d0 d1 d2 d3 d4 d5 d6 d7 :: rest))
      with (sextet a7 a6 a5 a4 a3 a2 :: sextet a1 a0 b7 b6 b5 b4
            :: sextet b3 b2 b1 b0 d7 d6 :: sextet d5 d4 d3 d2 d1 d0
            :: base64 rest).
    destruct H as [H | [H | [H | H]]].
    + injection H as -> -> -> -> -> -> -> ->.
      exists "O"%char. simpl. auto.
    + injection H as -> -> -> -> -> -> -> ->.
      exists (sextet true false true false d7 d6). split.
      * simpl. auto.
      * destruct d7, d6; in_list.
    + injection H as -> -> -> -> -> -> -> ->.
      exists "6"%char. split; in_list.
    + destruct (IH H) as (c & Hc & Hc'). exists c. split; [|exact Hc'].
      simpl. auto.
Qed.

Lemma utf8_colon (u p : jsstring) : In ":"%char (utf8 (u ++ str ":" ++ p)).
Proof.
  unfold utf8. apply in_flat_map. exists ":"%char. split.
  - apply in_or_app. right. now left.
  - now left.
Qed.

(** ** The sanitizer *)

Lemma includes_unit (q : jsstring) (c : ascii) :
  includes q [c] = false -> ~ In c q.
Proof.
  rewrite includes_false_Infix. intros H Hin. apply H.
  apply in_split in Hin as (l & r & ->). now exists l, r.
Qed.

Lemma Clear_marker (q : jsstring) :
  q <> [] -> ~ In "["%char q -> ~ In "]"%char q ->
  ~ Infix q (str "REDACTED") ->
  Clear REDACTED "["%char q.
Proof.
  intros Hne Ho Hc Hmid. split; [exact Ho|]. intros x H.
  change (REDACTED ++ x)
    with ([] ++ "["%char :: (str "REDACTED" ++ "]"%char :: x)) in H.
  apply (Infix_split _ _ _ _ Ho) in H as [H | H].
  - apply Infix_nil_r in H. contradiction.
  - apply (Infix_split _ _ _ _ Hc) in H as [H | H]; [contradiction | exact H].
Qed.

Lemma avoidsMarker_Clear (q : jsstring) :
  avoidsMarker q = true -> q <> [] /\ Clear REDACTED "["%char q.
Proof.
  unfold avoidsMarker. rewrite !andb_true_iff, !negb_true_iff.
  intros [[Ho Hc] Hmid].
  assert (Hne : q <> []) by (intros ->; discriminate).
  split; [exact Hne|].
  apply Clear_marker; auto using includes_unit.
  now apply includes_false_Infix.
Qed.

Lemma base64Auth_Clear (u p : jsstring) :
  toBase64 (u ++ str ":" ++ p) <> []
  /\ Clear REDACTED "["%char (toBase64 (u ++ str ":" ++ p)).
Proof.
  unfold toBase64.
  destruct (base64_colon _ (utf8_colon u p)) as (c & Hc & Hc').
  set (b := base64 (utf8 (u ++ str ":" ++ p))) in *.
  assert (Hne : b <> []) by (intros E; rewrite E in Hc; destruct Hc).
  split; [exact Hne|].
  apply Clear_marker; auto.
  - intros H. now apply base64_no_bracket in H as [H _].
  - intros H. now apply base64_no_bracket in H as [_ H].
  - intros H. apply (Infix_In _ _ c H) in Hc. clear -Hc Hc'.
    simpl in Hc'. simpl in Hc.
    repeat (destruct Hc' as [<- | Hc']; [intuition discriminate|]).
    destruct Hc'.
Qed.

(** With both credentials present the sanitizer is three passes. *)
Lemma sanitizeMessage_passes (config : Credentials) (message : jsstring) :
  cred_username config <> [] -> cred_password config <> [] ->
  sanitizeMessage message config =
  replaceAll
    (replaceAll (replaceAll message (cred_password config) REDACTED)
                (cred_username config) REDACTED)
    (toBase64 (cred_username config ++ str ":" ++ cred_password config))
    REDACTED.
Proof.
  intros Hu Hp. unfold sanitizeMessage.
  destruct (base64Auth_Clear (cred_username config) (cred_password config))
    as [Hb _].
  destruct (cred_username config), (cred_password config); try contradiction.
  destruct (toBase64 _); [contradiction | reflexivity].
Qed.

Lemma replaceAll_keeps_out (s pat q : jsstring) :
  pat <> [] -> Clear REDACTED "["%char q ->
  ~ Infix q s -> ~ Infix q (replaceAll s pat REDACTED).
Proof.
  intros Hne Hq Hs H. apply Hs. destruct pat as [|a0 pat0]; [contradiction|].
  exact (replaceAll_Infix a0 pat0 REDACTED "["%char (str "REDACTED]")
           eq_refl s q Hq H).
Qed.

Lemma replaceAll_takes_out (s pat : jsstring) :
  pat <> [] -> Clear REDACTED "["%char pat ->
  ~ Infix pat (replaceAll s pat REDACTED).
Proof.
  intros Hne Hq. destruct pat as [|a0 pat0]; [contradiction|].
  exact (replaceAll_removes a0 pat0 REDACTED "["%char (str "REDACTED]")
           eq_refl s Hq).
Qed.

Lemma replaceAll_fixed (s pat : jsstring) :
  pat <> [] -> ~ Infix pat s -> replaceAll s pat REDACTED = s.
Proof.
  intros Hne H. destruct pat as [|a0 pat0]; [contradiction|].
  now apply replaceAll_absent.
Qed.

Lemma sanitizeMessage_free (config : Credentials) (message : jsstring) :
  avoidsMarker (cred_username config) = true ->
  avoidsMarker (cred_password config) = true ->
  let out := sanitizeMessage message config in
  ~ Infix (cred_username config) out
  /\ ~ Infix (cred_password config) out
  /\ ~ Infix (toBase64 (cred_username config ++ str ":" ++ cred_password config))
             out.
Proof.
  intros Hu Hp.
  apply avoidsMarker_Clear in Hu as [Hu Cu].
  apply avoidsMarker_Clear in Hp as [Hp Cp].
  destruct (base64Auth_Clear (cred_username config) (cred_password config))
    as [Hb Cb].
  cbv zeta. rewrite sanitizeMessage_passes by assumption.
  repeat split.
  - apply replaceAll_keeps_out; auto. now apply replaceAll_takes_out.
  - do 2 (apply replaceAll_keeps_out; auto). now apply replaceAll_takes_out.
  - now apply replaceAll_takes_out.
Qed.

(** C1 (as amended): for every configuration whose username and password
    contain neither bracket and are not pieces of the word REDACTED (so
    both are non-empty), and for every message - in particular one that
    contains a credential - the sanitized message contains neither the
    username, nor the password, nor the base64 text of username:password. *)
Theorem sanitizeMessage_scrubs (config : Credentials) (message : jsstring) :
  avoidsMarker (cred_username config) = true ->
  avoidsMarker (cred_password config) = true ->
  let out := sanitizeMessage message config in
  includes out (cred_username config) = false
  /\ includes out (cred_password config) = false
  /\ includes out
       (toBase64 (cred_username config ++ str ":" ++ cred_password config))
     = false.
Proof.
  intros Hu Hp out. rewrite !includes_false_Infix.
  now apply sanitizeMessage_free.
Qed.

Lemma sanitizeMessage_scrubs_witness :
  let config := {| cred_username := str "admin"; cred_password := str "hunter2" |} in
  let out :=
    sanitizeMessage (str "login admin:hunter2 failed (YWRtaW46aHVudGVyMg==)")
                    config in
  includes out (str "admin") = false
  /\ includes out (str "hunter2") = false
  /\ includes out (toBase64 (str "admin" ++ str ":" ++ str "hunter2")) = false.
Proof.
  exact (sanitizeMessage_scrubs
           {| cred_username := str "admin"; cred_password := str "hunter2" |}
           (str "login admin:hunter2 failed (YWRtaW46aHVudGVyMg==)")
           eq_refl eq_refl).
Defined.

(** C1 (as stated) fails: the message is the username, the password is a
    letter of the marker; the username is replaced by the marker, and the
    marker contains the password. *)
Lemma sanitizeMessage_marker_contains_password :
  let config := {| cred_username := str "u"; cred_password := str "E" |} in
  cred_username config <> [] /\ cred_password config <> []
  /\ includes (str "u") (cred_username config) = true
  /\ sanitizeMessage (str "u") config = str "[REDACTED]"
  /\ includes (sanitizeMessage (str "u") config) (cred_password config) = true.
Proof.
  cbv zeta. repeat split; discriminate.
Qed.

(** C5 (as amended): for every configuration whose username and password
    contain neither bracket and are not pieces of the word REDACTED, and
    every message, sanitizing the sanitized message gives it back. *)
Theorem sanitizeMessage_idempotent (config : Credentials) (message : jsstring) :
  avoidsMarker (cred_username config) = true ->
  avoidsMarker (cred_password config) = true ->
  sanitizeMessage (sanitizeMessage message config) config
  = sanitizeMessage message config.
Proof.
  intros Hu Hp.
  destruct (sanitizeMessage_free config message Hu Hp) as (Fu & Fp & Fb).
  apply avoidsMarker_Clear in Hu as [Hu _].
  apply avoidsMarker_Clear in Hp as [Hp _].
  destruct (base64Auth_Clear (cred_username config) (cred_password config))
    as [Hb _].
  rewrite (sanitizeMessage_passes config (sanitizeMessage message config))
    by assumption.
  rewrite !replaceAll_fixed; auto;
    rewrite ?replaceAll_fixed; auto; rewrite ?replaceAll_fixed; auto.
Qed.

Lemma sanitizeMessage_idempotent_witness :
  let config := {| cred_username := str "admin"; cred_password := str "hunter2" |} in
  sanitizeMessage (sanitizeMessage (str "admin:hunter2 rejected") config) config
  = sanitizeMessage (str "admin:hunter2 rejected") config.
Proof.
  exact (sanitizeMessage_idempotent
           {| cred_username := str "admin"; cred_password := str "hunter2" |}
           (str "admin:hunter2 rejected") eq_refl eq_refl).
Defined.

(** C5 (as stated) fails: the username is a letter of the marker, so each
    round of sanitizing rewrites the markers of the round before. *)
Lemma sanitizeMessage_not_idempotent :
  let config := {| cred_username := str "E"; cred_password := str "x" |} in
  cred_username config <> [] /\ cred_password config <> []
  /\ sanitizeMessage (str "x") config = str "[R[REDACTED]DACT[REDACTED]D]"
  /\ sanitizeMessage (sanitizeMessage (str "x") config) config
     = str "[R[R[REDACTED]DACT[REDACTED]D]DACT[R[REDACTED]DACT[REDACTED]D]D]"
  /\ sanitizeMessage (sanitizeMessage (str "x") config) config
     <> sanitizeMessage (str "x") config.
Proof.
  cbv zeta. repeat split; try discriminate; reflexivity.
Qed.

(** ** The registration gate *)

Lemma str_eqb_eq (a b : jsstring) : str_eqb a b = true <-> a = b.
Proof.
  unfold str_eqb. destruct (list_eq_dec ascii_dec a b); split;
    congruence.
Qed.

Lemma includes_category (c : ToolCategory) (allowed : list ToolCategory) :
  existsb (str_eqb c) allowed = true <-> In c allowed.
Proof.
  rewrite existsb_exists. split.
  - intros (x & Hin & E). apply str_eqb_eq in E. now subst.
  - intros Hin. exists c. split; [exact Hin | now apply str_eqb_eq].
Qed.

Lemma tier_gate (C : AppConfig) (D : ToolRegistration) :
  AccessTier_eqb (accessTier C) ReadOnly
  && AccessTier_eqb (reg_accessTier D) Full = true
  <-> accessTier C = ReadOnly /\ reg_accessTier D = Full.
Proof.
  destruct (accessTier C), (reg_accessTier D); simpl; split;
    try discriminate; try (intros [? ?]; discriminate); auto.
Qed.

Lemma category_gate (C : AppConfig) (D : ToolRegistration) :
  match categories C with
  | Some allowed => negb (existsb (str_eqb (reg_category D)) allowed)
  | None => false
  end = true
  <-> exists allowed, categories C = Some allowed
                      /\ ~ In (reg_category D) allowed.
Proof.
  destruct (categories C) as [allowed|].
  - rewrite negb_true_iff, <- not_true_iff_false, includes_category. split.
    + intros Hn. now exists allowed.
    + intros (l & E & Hl). now injection E as <-.
  - split; [discriminate | intros (l & E & _); discriminate].
Qed.

(** C2: [registerTool] returns false, leaving the server as it was, exactly
    when the configuration is read-only and the descriptor needs full
    access, or the configuration has a category list and the descriptor's
    category is not in it.  In every other case it makes the server's
    registration call and returns true when that call returns. *)
Theorem registerTool_gate `{Sdk} (server : McpServer)
        (D : ToolRegistration) (C : AppConfig) :
  let rejected :=
    (accessTier C = ReadOnly /\ reg_accessTier D = Full)
    \/ (exists allowed, categories C = Some allowed
                        /\ ~ In (reg_category D) allowed) in
  (registerTool server D C = (Returned false, server) <-> rejected)
  /\ (~ rejected ->
      forall server',
        server_registerTool server (toolOf D C) = (Returned tt, server') ->
        registerTool server D C = (Returned true, server')).
Proof.
  cbv zeta. rewrite <- tier_gate, <- category_gate. unfold registerTool.
  destruct (AccessTier_eqb (accessTier C) ReadOnly
            && AccessTier_eqb (reg_accessTier D) Full).
  { split; [tauto | intros Hn; exfalso; apply Hn; now left]. }
  destruct (match categories C with
            | Some allowed => negb (existsb (str_eqb (reg_category D)) allowed)
            | None => false
            end).
  { split; [tauto | intros Hn; exfalso; apply Hn; now right]. }
  split.
  - split; [|intros [E | E]; discriminate].
    destruct (server_registerTool server (toolOf D C)) as [[[]|e] s'];
      discriminate.
  - intros _ server' ->. reflexivity.
Qed.

Lemma registerTool_gate_witness :
  let D := stats_reset (H := Demo.unreachable)
                       (newAdGuardClient Demo.config) Demo.config in
  registerTool (H := Demo.listServer) [] D Demo.config
  = (Returned true, [toolOf D Demo.config]).
Proof.
  refine (proj2 (registerTool_gate (H := Demo.listServer) [] _ Demo.config)
                _ _ eq_refl).
  intros [[E _] | (allowed & E & Hout)]; [discriminate|].
  injection E as <-. apply Hout. right. now left.
Defined.

(** Scenarios 1 and 2 of the specification. *)
Example registerTool_read_only :
  registerTool (H := Demo.listServer) []
               (Demo.descriptor (str "x") (str "dns") Full) Demo.loaded
  = (Returned false, []).
Proof. reflexivity. Qed.

Example registerTool_categories :
  let tls := Demo.descriptor (str "tls_status") (str "tls") ReadOnly in
  let dns := Demo.descriptor (str "dns_info") (str "dns") ReadOnly in
  registerTool (H := Demo.listServer) [] tls Demo.loaded = (Returned false, [])
  /\ registerTool (H := Demo.listServer) [] dns Demo.loaded
     = (Returned true, [toolOf dns Demo.loaded]).
Proof. split; reflexivity. Qed.

(** A name that the server has already is the server's to refuse. *)
Example registerTool_twice :
  let dns := Demo.descriptor (str "dns_info") (str "dns") ReadOnly in
  registerTool (H := Demo.listServer) [toolOf dns Demo.loaded] dns Demo.loaded
  = (Threw (ThrownError
       (newError (str "Tool dns_info is already registered"))),
     [toolOf dns Demo.loaded]).
Proof. reflexivity. Qed.

(** ** The handler wrapper *)

(** C3 (as amended): when the handler returns a text, the callback that
    [registerTool] hands to the server returns that text as one text block,
    without error mark; when the handler throws a value that is no
    [Error], the callback returns a result marked as an error with a fixed
    text; when the handler throws an [Error] whose message is a string, the
    callback returns a result marked as an error whose text is that message
    run through [sanitizeMessage] under the configuration.  In each of
    these cases the callback returns: nothing is thrown. *)
Theorem wrapHandler_catches (D : ToolRegistration) (C : AppConfig)
        (args : Args) (w : World) :
  let call := tool_callback (toolOf D C) args w in
  match reg_handler D args w with
  | (Fulfilled text, w') =>
      call = (Returned {| content := [TextContent text];
                          isError := None |}, w')
  | (Rejected (RaisedThrown (ThrownError e)), w') =>
      call = (Returned {| content :=
                            [TextContent (sanitizeMessage (message e) C)];
                          isError := Some true |}, w')
  | (Rejected (RaisedThrown (ThrownOther _)), w') =>
      call = (Returned {| content :=
                            [TextContent (str "An unknown error occurred")];
                          isError := Some true |}, w')
  | (Rejected (RaisedOddError m), w') =>
      forall s, m = VString s ->
      call = (Returned {| content := [TextContent (sanitizeMessage s C)];
                          isError := Some true |}, w')
  end.
Proof.
  cbv zeta. cbn [tool_callback toolOf]. unfold wrapHandler.
  destruct (reg_handler D args w) as [[text | [[e | image] | m]] w'];
    try reflexivity.
  intros s ->. reflexivity.
Qed.

(** C3 (as stated) fails: a registered tool whose handler throws an
    [Error] with the number 42 for its message.  The [catch] block hands
    the number to [sanitizeMessage], whose [replaceAll] throws a
    [TypeError], and that leaves the callback. *)
Lemma wrapHandler_lets_TypeError_out :
  registerTool (H := Demo.listServer) [] Demo.oddTool Demo.config
  = (Returned true, [toolOf Demo.oddTool Demo.config])
  /\ reg_handler Demo.oddTool Demo.noArgs []
     = (Rejected (RaisedOddError (VNumber 42)), [])
  /\ tool_callback (toolOf Demo.oddTool Demo.config) Demo.noArgs []
     = (Threw (ThrownError
          {| isAdGuardError := false; name := str "TypeError";
             message := str "sanitized.replaceAll is not a function";
             statusCode := None |}), []).
Proof. repeat split. Qed.

(** ** The write tool [stats_reset] *)

(** C8: with [confirmDestructive] set and [confirm] absent or false (or
    otherwise falsy), the handler returns the confirmation prompt and the
    world is as before: no request is issued.  The same holds of the
    registered callback, which returns the prompt as a text block. *)
Theorem stats_reset_asks_first `{Platform} (client : AdGuardClient)
        (C : AppConfig) (args : Args) (w : World) :
  confirmDestructive C = true ->
  truthy (args (str "confirm")) = false ->
  stats_reset_handler client C args w
  = (Returned (str "This is a destructive operation that cannot be undone. Set confirm: true to proceed."),
     w)
  /\ tool_callback (toolOf (stats_reset client C) C) args w
     = (Returned {| content := [TextContent CONFIRM_PROMPT]; isError := None |},
        w).
Proof.
  intros Hc Ha. simpl tool_callback.
  unfold wrapHandler. simpl reg_handler. unfold asHandler.
  unfold stats_reset_handler. rewrite Hc, Ha. simpl. split; reflexivity.
Qed.

Lemma stats_reset_asks_first_witness :
  stats_reset_handler (H := Demo.unreachable)
                      (newAdGuardClient Demo.config) Demo.config Demo.noArgs []
  = (Returned CONFIRM_PROMPT, []).
Proof.
  exact (proj1 (stats_reset_asks_first
                  (H := Demo.unreachable)
                  (newAdGuardClient Demo.config) Demo.config Demo.noArgs []
                  eq_refl eq_refl)).
Defined.

(** With [confirm: true] the request is issued. *)
Example stats_reset_confirmed :
  let P := Demo.replying (Demo.response 200 (str "text/plain") [] (str "OK")) in
  let client := newAdGuardClient Demo.config in
  stats_reset_handler (H := P) client Demo.config
                      (fun _ => VBool true) []
  = (Returned (str "Statistics reset."),
     [postRequest (H := P) client (str "stats_reset") None]).
Proof. reflexivity. Qed.

(** ** The HTTP client *)

Section ClientFacts.

Context `{Platform}.
Variable this : AdGuardClient.

Lemma post_ok (path : jsstring) (body : option JsValue) (w : World)
      (r : Response) :
  network w (postRequest this path body) = inl r ->
  ok r = true ->
  post this path body w =
  let w' := w ++ [postRequest this path body] in
  if match headers_get r (str "content-length") with
     | Some v => str_eqb v (str "0")
     | None => false
     end
  then (Returned (VString []), w')
  else match Runtime.body r with
       | [] => (Returned (VString []), w')
       | _ :: _ =>
           if includes (contentTypeOf r) (str "json")
           then match JSON_parse (Runtime.body r) with
                | inl v => (Returned v, w')
                | inr _ => (Returned (VString (Runtime.body r)), w')
                end
           else (Returned (VString (Runtime.body r)), w')
       end.
Proof.
  intros Hn Hok. unfold post, tryCatch, bind, fetch. rewrite Hn, Hok. simpl.
  destruct (match headers_get r (str "content-length") with
            | Some v => str_eqb v (str "0")
            | None => false
            end); [reflexivity|].
  unfold text, ret. destruct (Runtime.body r) as [|c b]; [reflexivity|].
  destruct (includes (contentTypeOf r) (str "json")); [|reflexivity].
  unfold parseJSON. destruct (JSON_parse (c :: b)); reflexivity.
Qed.

Lemma get_ok (path : jsstring) (w : World) (r : Response) :
  network w (getRequest this path) = inl r ->
  ok r = true ->
  get this path w =
  let w' := w ++ [getRequest this path] in
  if includes (contentTypeOf r) (str "json")
  then match JSON_parse (body r) with
       | inl v => (Returned v, w')
       | inr msg =>
           (Threw (ThrownError
              (AdGuardError (sanitizeMessage msg (config this)) None)), w')
       end
  else (Returned (VString (body r)), w').
Proof.
  intros Hn Hok. unfold get, tryCatch, bind, fetch. rewrite Hn, Hok. simpl.
  unfold parseResponse.
  destruct (includes (contentTypeOf r) (str "json")); [|reflexivity].
  unfold parseJSON. destruct (JSON_parse (body r)); reflexivity.
Qed.

(** C7: a successful response to [post] whose [content-length] header
    is the text 0 gives the empty string, whatever the path, the body sent
    and the body received. *)
Theorem post_content_length_zero (path : jsstring) (body : option JsValue)
        (w : World) (r : Response) :
  network w (postRequest this path body) = inl r ->
  ok r = true ->
  headers_get r (str "content-length") = Some (str "0") ->
  post this path body w
  = (Returned (VString ([])), w ++ [postRequest this path body]).
Proof.
  intros Hn Hok Hlen. rewrite (post_ok path body w r Hn Hok), Hlen.
  reflexivity.
Qed.

(** C4 (as amended): on a successful response, [get] and [post] - the
    latter unless the [content-length] header is the text 0 - return the
    parsed value when the content type contains [json] and the body is
    JSON, and the body as text when the content type does not contain
    [json] (as [text/plain]); [post] returns the body as text when the
    content type contains [json] and the body is not JSON. *)
Theorem response_decoding (path : jsstring) (w : World) (r : Response) :
  ok r = true ->
  (network w (getRequest this path) = inl r ->
   let w' := w ++ [getRequest this path] in
   (forall v, includes (contentTypeOf r) (str "json") = true ->
              JSON_parse (body r) = inl v ->
              get this path w = (Returned v, w'))
   /\ (includes (contentTypeOf r) (str "json") = false ->
       get this path w = (Returned (VString (body r)), w')))
  /\ (forall sent,
        network w (postRequest this path sent) = inl r ->
        headers_get r (str "content-length") <> Some (str "0") ->
        let w' := w ++ [postRequest this path sent] in
        (forall v, includes (contentTypeOf r) (str "json") = true ->
                   JSON_parse (body r) = inl v ->
                   post this path sent w = (Returned v, w'))
        /\ (includes (contentTypeOf r) (str "json") = false ->
            post this path sent w = (Returned (VString (body r)), w'))
        /\ (forall msg, includes (contentTypeOf r) (str "json") = true ->
                        JSON_parse (body r) = inr msg ->
                        post this path sent w
                        = (Returned (VString (body r)), w'))).
Proof.
  intros Hok. split.
  - intros Hn. cbv zeta. rewrite (get_ok path w r Hn Hok). cbv zeta. split.
    + intros v -> ->. reflexivity.
    + intros ->. reflexivity.
  - intros sent Hn Hlen. cbv zeta.
    rewrite (post_ok path sent w r Hn Hok). cbv zeta.
    assert (Hl : match headers_get r (str "content-length") with
                 | Some v => str_eqb v (str "0")
                 | None => false
                 end = false).
    { destruct (headers_get r (str "content-length")) as [v|]; [|reflexivity].
      apply not_true_iff_false. rewrite str_eqb_eq. congruence. }
    rewrite Hl. repeat split.
    + intros v -> Hv. rewrite Hv.
      destruct (body r); [now apply JSON_parse_empty in Hv | reflexivity].
    + intros ->. now destruct (body r).
    + intros msg -> ->. now destruct (body r).
Qed.

(** C6 (as amended): when the status endpoint answers 401 or 403,
    [validateConnection] throws an [AdGuardError] that carries the status
    and whose message is exactly the fixed text below, whatever the
    configuration, and nothing follows it.  The text is not built from the
    credentials and is not sanitized: it contains none of the credential
    texts provided that none of them is a piece of the fixed text itself. *)
Theorem validateConnection_auth_failed (w : World) (r : Response) :
  network w (getRequest this (str "status")) = inl r ->
  status r = 401%N \/ status r = 403%N ->
  validateConnection this w
  = (Threw (ThrownError
       {| isAdGuardError := true;
          name := str "AdGuardError";
          message :=
            str "Authentication failed -- check ADGUARD_USERNAME and ADGUARD_PASSWORD";
          statusCode := Some (status r) |}),
     w ++ [getRequest this (str "status")])
  /\ (credentialFree (config this)
        (str "Authentication failed -- check ADGUARD_USERNAME and ADGUARD_PASSWORD")
      = true ->
      forall err, fst (validateConnection this w) = Threw err ->
                  credentialFree (config this) (messageOf err) = true).
Proof.
  intros Hn Hs.
  assert (E : validateConnection this w
              = (Threw (ThrownError (AdGuardError AUTH_FAILED
                                       (Some (status r)))),
                 w ++ [getRequest this (str "status")])).
  { unfold validateConnection, tryCatch, bind, fetch. rewrite Hn.
    assert (E : ((status r =? 401)%N || (status r =? 403)%N) = true).
    { destruct Hs as [-> | ->]; reflexivity. }
    rewrite E. reflexivity. }
  split; [exact E|]. rewrite E. intros Hfree err [= <-]. exact Hfree.
Qed.

End ClientFacts.

Lemma post_content_length_zero_witness :
  let r := Demo.response 200 (str "text/plain")
                         [(str "Content-Length", str "0")] (str "ignored") in
  let client := newAdGuardClient Demo.config in
  post (H := Demo.replying r) client (str "stats_reset") None []
  = (Returned (VString ([])),
     [postRequest (H := Demo.replying r) client (str "stats_reset") None]).
Proof.
  intros r client.
  exact (post_content_length_zero (H := Demo.replying r) client
           (str "stats_reset") None [] r eq_refl eq_refl eq_refl).
Defined.

Lemma response_decoding_witness :
  let r := Demo.response 200 (str "application/json; charset=utf-8") []
                         (str "{}") in
  let client := newAdGuardClient Demo.config in
  get (H := Demo.replying r) client (str "status") []
  = (Returned (VObject []), [getRequest client (str "status")]).
Proof.
  intros r client.
  exact (proj1 (proj1 (response_decoding (H := Demo.replying r) client
                         (str "status") [] r eq_refl) eq_refl)
               (VObject []) eq_refl eq_refl).
Defined.

(** C4 (as stated) fails for [get]: the answer is 200 with a JSON content
    type and the body [oops], which is not JSON; [post] returns the body as
    text, [get] throws an [AdGuardError] with the parser's message.  It
    also fails for [post] on an answer that announces no content and has
    some: the JSON body is not parsed, the empty string is returned. *)
Lemma response_decoding_fails_as_stated :
  let r := Demo.response 200 (str "application/json") [] (str "oops") in
  let r0 := Demo.response 200 (str "application/json")
                          [(str "content-length", str "0")] (str "{}") in
  let client := newAdGuardClient Demo.config in
  (ok r = true
   /\ includes (contentTypeOf r) (str "json") = true
   /\ JSON_parse (Platform := Demo.replying r) (body r)
      = inr (str "Unexpected token")
   /\ post (H := Demo.replying r) client (str "status") None []
      = (Returned (VString (str "oops")),
         [postRequest (H := Demo.replying r) client (str "status") None])
   /\ get (H := Demo.replying r) client (str "status") []
      = (Threw (ThrownError (AdGuardError (str "Unexpected token") None)),
         [getRequest client (str "status")]))
  /\ (ok r0 = true
      /\ includes (contentTypeOf r0) (str "json") = true
      /\ JSON_parse (Platform := Demo.replying r0) (body r0)
         = inl (VObject [])
      /\ post (H := Demo.replying r0) client (str "status") None []
         = (Returned (VString ([])),
            [postRequest (H := Demo.replying r0) client (str "status") None])).
Proof.
  cbv zeta. repeat split; reflexivity.
Qed.

(** Scenario 4 of the specification: a refusal of [get] carries the status
    and the reason phrase, sanitized. *)
Example get_refused :
  let r := {| status := 500; statusText := str "hunter2 rejected";
              headers := []; body := [] |} in
  get (H := Demo.replying r) (newAdGuardClient Demo.config) (str "status") []
  = (Threw (ThrownError
       (AdGuardError (str "GET status failed: 500 [REDACTED] rejected")
                     (Some 500%N))),
     [getRequest (newAdGuardClient Demo.config) (str "status")]).
Proof. reflexivity. Qed.

(** A failure of [fetch] is rethrown as a sanitized [AdGuardError]. *)
Example get_unreachable :
  get (H := Demo.unreachable) (newAdGuardClient Demo.config) (str "status") []
  = (Threw (ThrownError (AdGuardError (str "fetch failed") None)),
     [getRequest (newAdGuardClient Demo.config) (str "status")]).
Proof. reflexivity. Qed.

Lemma validateConnection_auth_failed_witness :
  let r := Demo.response 401 (str "text/plain") [] [] in
  let client := newAdGuardClient Demo.config in
  validateConnection (H := Demo.replying r) client []
  = (Threw (ThrownError (AdGuardError AUTH_FAILED (Some 401%N))),
     [getRequest client (str "status")])
  /\ credentialFree Demo.config AUTH_FAILED = true.
Proof.
  intros r client.
  pose proof (validateConnection_auth_failed (H := Demo.replying r) client []
                r eq_refl (or_introl eq_refl)) as [E F].
  split; [exact E|].
  exact (F eq_refl _ eq_refl).
Defined.

(** C6 (as stated) fails: the username is a word of the fixed text, which
    is thrown as it is. *)
Lemma validateConnection_auth_text_has_username :
  let config :=
    {| url := str "http://adguard.local";
       username := str "check"; password := str "hunter2";
       accessTier := Full; categories := None; debug := false;
       confirmDestructive := false |} in
  let r := Demo.response 401 (str "text/plain") [] [] in
  let client := newAdGuardClient config in
  validateConnection (H := Demo.replying r) client []
  = (Threw (ThrownError
       (AdGuardError
          (str "Authentication failed -- check ADGUARD_USERNAME and ADGUARD_PASSWORD")
          (Some 401%N))),
     [getRequest client (str "status")])
  /\ includes
       (str "Authentication failed -- check ADGUARD_USERNAME and ADGUARD_PASSWORD")
       (username config) = true.
Proof. cbv zeta. split; reflexivity. Qed.

(** Any other refusal carries the status in a sanitized text. *)
Example validateConnection_refused :
  let P := Demo.replying
             {| status := 500; statusText := str "admin is down";
                headers := []; body := [] |} in
  validateConnection (H := P) (newAdGuardClient Demo.config) []
  = (Threw (ThrownError
       (AdGuardError (str "Connection check failed: 500 [REDACTED] is down")
                     (Some 500%N))),
     [getRequest (newAdGuardClient Demo.config) (str "status")]).
Proof. reflexivity. Qed.

(** ** The configuration *)

Lemma stripTrailingSlashes_last (s : jsstring) :
  stripTrailingSlashes s = []
  \/ exists l c, stripTrailingSlashes s = l ++ [c] /\ c <> "/"%char.
Proof.
  induction s as [|a s IH]; [now left|]. simpl.
  destruct IH as [-> | (l & c & -> & Hc)].
  - destruct (Ascii.eqb a "/") eqn:E; [now left|]. right.
    exists [], a. split; [reflexivity|]. now apply Ascii.eqb_neq.
  - right. exists (a :: l), c. split; [|exact Hc].
    now destruct l.
Qed.

Lemma stripTrailingSlashes_endsWith (s : jsstring) :
  endsWith (stripTrailingSlashes s) (str "/") = false.
Proof.
  unfold endsWith.
  destruct (stripTrailingSlashes_last s) as [-> | (l & c & -> & Hc)];
    [reflexivity|].
  rewrite rev_app_distr.
  change (Ascii.eqb "/" c && true = false).
  apply andb_false_iff. left. apply Ascii.eqb_neq. congruence.
Qed.

Lemma isSet_the (v : option jsstring) : isSet v = true -> the v <> [].
Proof. destruct v as [[|c s]|]; simpl; congruence. Qed.

Lemma filter_none (A : Type) (f : A -> bool) (l : list A) :
  (0 <? List.length (filter (fun c => negb (f c)) l)) = false ->
  Forall (fun c => f c = true) l.
Proof.
  induction l as [|x l IH]; simpl; [constructor|].
  destruct (f x) eqn:E; simpl; [|discriminate].
  intros H. constructor; auto.
Qed.

(** C9: a configuration that [loadConfig] returns has a url that does not
    end with a slash, a non-empty username and a non-empty password, and,
    when it has a category list, every element of the list is one of the
    16 valid category tags. *)
Theorem loadConfig_invariant (env : Env) (config : AppConfig) :
  loadConfig env = Returned config ->
  endsWith (url config) (str "/") = false
  /\ username config <> []
  /\ password config <> []
  /\ (forall allowed, categories config = Some allowed ->
                      Forall (fun c => In c VALID_CATEGORIES) allowed)
  /\ List.length VALID_CATEGORIES = 16.
Proof.
  unfold loadConfig. cbv zeta.
  destruct (0 <? List.length _) eqn:Emissing; [discriminate|].
  destruct (isSet (ADGUARD_URL env)) eqn:Eurl; [|discriminate].
  destruct (isSet (ADGUARD_USERNAME env)) eqn:Euser; [|discriminate].
  destruct (isSet (ADGUARD_PASSWORD env)) eqn:Epass; [|discriminate].
  clear Emissing.
  match goal with
  | |- match ?parsedTier with _ => _ end = _ -> _ =>
      destruct parsedTier as [tier|e]; [|discriminate]
  end.
  match goal with
  | |- match ?parsedCats with _ => _ end = _ -> _ =>
      destruct parsedCats as [cats|e] eqn:Ecats; [|discriminate]
  end.
  intros [= <-]. simpl.
  repeat split; auto using stripTrailingSlashes_endsWith, isSet_the.
  intros allowed ->.
  destruct (isSet (ADGUARD_CATEGORIES env)); [|discriminate].
  destruct (0 <? List.length _) eqn:Einvalid in Ecats; [discriminate|].
  injection Ecats as <-.
  apply filter_none in Einvalid.
  eapply Forall_impl; [|exact Einvalid].
  intros c Hc. exact (proj1 (includes_category c VALID_CATEGORIES) Hc).
Qed.

Lemma loadConfig_invariant_witness :
  loadConfig Demo.env = Returned Demo.loaded
  /\ endsWith (url Demo.loaded) (str "/") = false
  /\ username Demo.loaded <> []
  /\ password Demo.loaded <> []
  /\ (forall allowed, categories Demo.loaded = Some allowed ->
                      Forall (fun c => In c VALID_CATEGORIES) allowed)
  /\ List.length VALID_CATEGORIES = 16.
Proof.
  split; [reflexivity|].
  exact (loadConfig_invariant Demo.env Demo.loaded eq_refl).
Defined.

(** What is refused: a missing variable, a tier or a category that is not
    known. *)
Example loadConfig_refuses :
  loadConfig (withCategories Demo.env (Some (str "dns,dnss")))
  = Threw (ThrownError (newError
      (str "Invalid ADGUARD_CATEGORIES: " ++ quoted (str "dnss")
       ++ str ". Valid categories: global, dns, querylog, stats, filtering, safebrowsing, parental, safesearch, clients, dhcp, rewrites, tls, blocked_services, access, install, mobile_config"))).
Proof. reflexivity. Qed.

(** ** A category list of commas and white space *)

Lemma split_blank (raw : jsstring) :
  blankList raw ->
  Forall (Forall (fun c => isWhiteSpace c = true)) (split ","%char raw).
Proof.
  unfold blankList. induction 1 as [|c raw Hc _ IH]; simpl.
  - repeat constructor.
  - destruct (Ascii.eqb c ",") eqn:E.
    + constructor; [constructor | exact IH].
    + destruct Hc as [-> | Hc]; [discriminate|].
      destruct (split ","%char raw) as [|h t].
      * repeat constructor. exact Hc.
      * inversion IH; subst. constructor; [constructor|]; assumption.
Qed.

Lemma trimStart_blank (s : jsstring) :
  Forall (fun c => isWhiteSpace c = true) s -> trimStart s = [].
Proof.
  induction 1 as [|c s Hc _ IH]; simpl; [reflexivity|]. now rewrite Hc.
Qed.

Lemma trim_blank (s : jsstring) :
  Forall (fun c => isWhiteSpace c = true) s -> trim s = [].
Proof.
  intros H. unfold trim, trimEnd. now rewrite (trimStart_blank s H).
Qed.

Lemma parsed_blank (raw : jsstring) :
  blankList raw ->
  filter (fun c => 0 <? List.length c)
         (map (fun c => toLowerCase (trim c)) (split ","%char raw)) = [].
Proof.
  intros H. apply split_blank in H.
  induction H as [|part parts Hp _ IH]; simpl; [reflexivity|].
  rewrite (trim_blank part Hp). exact IH.
Qed.

(** C10: when the rest of the environment is acceptable, a category
    variable that is not empty and holds only commas and white space is
    accepted and gives the empty category list, which is not the absent
    one: under it [registerTool] returns false for every descriptor and
    leaves the server as it was.  When the variable is not set or empty,
    the configuration has no category list. *)
Theorem blank_categories_register_nothing
        (env : Env) (raw : jsstring) (config0 : AppConfig) :
  raw <> [] -> blankList raw ->
  loadConfig (withCategories env None) = Returned config0 ->
  let config := allowing config0 (Some []) in
  loadConfig (withCategories env (Some raw)) = Returned config
  /\ (forall (sdk : Sdk) (server : McpServer) (D : ToolRegistration),
         registerTool server D config = (Returned false, server))
  /\ categories config0 = None
  /\ loadConfig (withCategories env (Some [])) = Returned config0.
Proof.
  intros Hne Hblank. unfold loadConfig. cbv zeta.
  cbn [withCategories ADGUARD_URL ADGUARD_USERNAME ADGUARD_PASSWORD
       ADGUARD_ACCESS_TIER ADGUARD_CATEGORIES DEBUG
       ADGUARD_CONFIRM_DESTRUCTIVE].
  destruct (0 <? List.length _); [discriminate|].
  match goal with
  | |- match ?parsedTier with _ => _ end = _ -> _ =>
      destruct parsedTier as [tier|e]; [|discriminate]
  end.
  cbn [isSet the]. intros [= <-].
  destruct raw as [|c raw]; [contradiction|].
  rewrite (parsed_blank (c :: raw) Hblank).
  repeat split.
  intros sdk server D. unfold registerTool.
  destruct (AccessTier_eqb _ _ && AccessTier_eqb _ _); reflexivity.
Qed.

Lemma blank_categories_register_nothing_witness :
  let config := allowing Demo.loaded (Some []) in
  loadConfig (withCategories Demo.env (Some (str ", ,"))) = Returned config
  /\ (forall (sdk : Sdk) (server : McpServer) (D : ToolRegistration),
         registerTool server D config = (Returned false, server))
  /\ categories (allowing Demo.loaded None) = None
  /\ loadConfig (withCategories Demo.env (Some []))
     = Returned (allowing Demo.loaded None).
Proof.
  refine (blank_categories_register_nothing
            Demo.env (str ", ,") (allowing Demo.loaded None) _ _ eq_refl).
  - discriminate.
  - repeat (apply Forall_cons;
            [first [left; reflexivity | right; reflexivity]|]).
    apply Forall_nil.
Defined.

(* ================================================================== *)
(** * Part III: further properties of the code                         *)
(* ================================================================== *)

(** ** The sanitizer on texts without credentials *)

(** X1: a message that contains no credential that is set, and not the
    base64 text of username:password, comes back as it is; an empty
    username or password is skipped, whatever the message. *)
Theorem sanitizeMessage_unchanged (config : Credentials) (message : jsstring) :
  (cred_password config = [] \/ includes message (cred_password config) = false) ->
  (cred_username config = [] \/ includes message (cred_username config) = false) ->
  includes message
    (toBase64 (cred_username config ++ str ":" ++ cred_password config)) = false ->
  sanitizeMessage message config = message.
Proof.
  intros Hp Hu Hb. unfold sanitizeMessage.
  assert (E1 : match cred_password config with
               | [] => message
               | _ :: _ => replaceAll message (cred_password config) REDACTED
               end = message).
  { destruct Hp as [-> | Hp]; [reflexivity|].
    destruct (cred_password config) eqn:E; [reflexivity|]. rewrite <- E in *.
    apply replaceAll_fixed; [congruence | now apply includes_false_Infix]. }
  rewrite E1.
  assert (E2 : match cred_username config with
               | [] => message
               | _ :: _ => replaceAll message (cred_username config) REDACTED
               end = message).
  { destruct Hu as [-> | Hu]; [reflexivity|].
    destruct (cred_username config) eqn:E; [reflexivity|]. rewrite <- E in *.
    apply replaceAll_fixed; [congruence | now apply includes_false_Infix]. }
  rewrite E2.
  destruct (toBase64 _) eqn:E; [reflexivity|]. rewrite <- E in *.
  apply replaceAll_fixed; [congruence | now apply includes_false_Infix].
Qed.

Lemma sanitizeMessage_unchanged_witness :
  sanitizeMessage (str "GET status failed: 500 Internal Server Error")
                  Demo.config
  = str "GET status failed: 500 Internal Server Error".
Proof.
  exact (sanitizeMessage_unchanged Demo.config
           (str "GET status failed: 500 Internal Server Error")
           (or_intror eq_refl) (or_intror eq_refl) eq_refl).
Defined.

Lemma credentialFree_sanitized (config : Credentials) (message : jsstring) :
  avoidsMarker (cred_username config) = true ->
  avoidsMarker (cred_password config) = true ->
  credentialFree config (sanitizeMessage message config) = true.
Proof.
  intros Hu Hp. unfold credentialFree.
  destruct (sanitizeMessage_free config message Hu Hp) as (Fu & Fp & Fb).
  apply includes_false_Infix in Fu, Fp, Fb. now rewrite Fu, Fp, Fb.
Qed.

(** X2: [createSafeError] returns for an [Error] with a string message
    and for a string; what it returns is a plain [Error] without status
    code - for an [Error] with the name of the original and the sanitized
    message, for a string with the sanitized string - and for a value that
    is neither it returns a plain [Error] with a fixed text.  On an [Error]
    whose message is not a string it throws a [TypeError].  When the
    credentials cannot meet the marker, the message it returns for an
    [Error] or a string is free of them. *)
Theorem createSafeError_scrubs (err : Caught) (config : Credentials) :
  match err with
  | CaughtError e =>
      createSafeError err config
      = Returned {| isAdGuardError := false; name := name e;
                    message := sanitizeMessage (message e) config;
                    statusCode := None |}
  | CaughtString s =>
      createSafeError err config
      = Returned {| isAdGuardError := false; name := str "Error";
                    message := sanitizeMessage s config;
                    statusCode := None |}
  | CaughtOther =>
      createSafeError err config
      = Returned {| isAdGuardError := false; name := str "Error";
                    message := str "An unknown error occurred";
                    statusCode := None |}
  | CaughtOddError n m =>
      (forall s, m <> VString s) ->
      exists e, createSafeError err config = Threw (ThrownError e)
                /\ name e = str "TypeError"
  end
  /\ (avoidsMarker (cred_username config) = true ->
      avoidsMarker (cred_password config) = true ->
      forall safe, createSafeError err config = Returned safe ->
                   err <> CaughtOther ->
                   credentialFree config (message safe) = true).
Proof.
  split.
  - destruct err as [e | n m | s |]; try reflexivity.
    intros Hm. destruct m; cbn; eauto. now destruct (Hm s).
  - intros Hu Hp safe E Hne.
    destruct err as [e | n m | s |]; cbn in E.
    + injection E as <-. now apply credentialFree_sanitized.
    + destruct m; try discriminate. injection E as <-.
      now apply credentialFree_sanitized.
    + injection E as <-. now apply credentialFree_sanitized.
    + contradiction.
Qed.

Lemma createSafeError_scrubs_witness :
  let e := AdGuardError (str "login admin:hunter2 refused") (Some 401%N) in
  createSafeError (CaughtError e) Demo.config
  = Returned {| isAdGuardError := false; name := str "AdGuardError";
                message := str "login [REDACTED]:[REDACTED] refused";
                statusCode := None |}
  /\ credentialFree Demo.config (str "login [REDACTED]:[REDACTED] refused")
     = true.
Proof.
  intros e. split; [reflexivity|].
  refine (proj2 (createSafeError_scrubs (CaughtError e) Demo.config)
                eq_refl eq_refl _ eq_refl _).
  discriminate.
Defined.

(** ** The client, case by case *)

Section ClientCases.

Context `{Platform}.
Variable this : AdGuardClient.

(** What the [catch] block of [get], [post] and [getRaw] throws on [err]. *)
Let rethrown (err : Thrown) : Thrown :=
  if instanceofAdGuardError err then err
  else ThrownError
         (AdGuardError (sanitizeMessage (messageOf err) (config this)) None).

(** What is thrown for an answer that is not 2xx. *)
Let refused (verb path : jsstring) (r : Response) : Thrown :=
  ThrownError
    (AdGuardError (sanitizeMessage (failedText verb path r) (config this))
                  (Some (status r))).

Lemma rethrow_eq (A : Type) (err : Thrown) (w : World) :
  rethrow this (A := A) err w = (Threw (rethrown err), w).
Proof.
  unfold rethrow, rethrown. now destruct (instanceofAdGuardError err).
Qed.

Lemma get_cases (path : jsstring) (w : World) :
  get this path w =
  let w' := w ++ [getRequest this path] in
  match network w (getRequest this path) with
  | inr err => (Threw (rethrown err), w')
  | inl r =>
      if ok r then
        if includes (contentTypeOf r) (str "json")
        then match JSON_parse (body r) with
             | inl v => (Returned v, w')
             | inr msg =>
                 (Threw (ThrownError
                    (AdGuardError (sanitizeMessage msg (config this)) None)),
                  w')
             end
        else (Returned (VString (body r)), w')
      else (Threw (refused (str "GET") path r), w')
  end.
Proof.
  cbv zeta. destruct (network w (getRequest this path)) as [r|err] eqn:Hn.
  - destruct (ok r) eqn:Hok; [now rewrite (get_ok this path w r Hn Hok)|].
    unfold get, tryCatch, bind, fetch. rewrite Hn, Hok. reflexivity.
  - unfold get, tryCatch, bind, fetch. rewrite Hn. apply rethrow_eq.
Qed.

Lemma post_cases (path : jsstring) (sent : option JsValue) (w : World) :
  post this path sent w =
  let w' := w ++ [postRequest this path sent] in
  match network w (postRequest this path sent) with
  | inr err => (Threw (rethrown err), w')
  | inl r =>
      if ok r then
        if match headers_get r (str "content-length") with
           | Some v => str_eqb v (str "0")
           | None => false
           end
        then (Returned (VString []), w')
        else match body r with
             | [] => (Returned (VString []), w')
             | _ :: _ =>
                 if includes (contentTypeOf r) (str "json")
                 then match JSON_parse (body r) with
                      | inl v => (Returned v, w')
                      | inr _ => (Returned (VString (body r)), w')
                      end
                 else (Returned (VString (body r)), w')
             end
      else (Threw (refused (str "POST") path r), w')
  end.
Proof.
  cbv zeta. destruct (network w (postRequest this path sent)) as [r|err] eqn:Hn.
  - destruct (ok r) eqn:Hok; [now rewrite (post_ok this path sent w r Hn Hok)|].
    unfold post, tryCatch, bind, fetch. rewrite Hn, Hok. reflexivity.
  - unfold post, tryCatch, bind, fetch. rewrite Hn. apply rethrow_eq.
Qed.

Lemma getRaw_cases (path : jsstring) (w : World) :
  getRaw this path w =
  let w' := w ++ [getRequest this path] in
  match network w (getRequest this path) with
  | inr err => (Threw (rethrown err), w')
  | inl r =>
      if ok r then (Returned (body r), w')
      else (Threw (refused (str "GET") path r), w')
  end.
Proof.
  cbv zeta. unfold getRaw, tryCatch, bind, fetch.
  destruct (network w (getRequest this path)) as [r|err].
  - now destruct (ok r).
  - apply rethrow_eq.
Qed.

Lemma validateConnection_cases (w : World) :
  validateConnection this w =
  let w' := w ++ [getRequest this (str "status")] in
  match network w (getRequest this (str "status")) with
  | inr err =>
      (Threw (if instanceofAdGuardError err then err
              else ThrownError
                     (AdGuardError
                        (sanitizeMessage
                           (str "Cannot connect to AdGuard Home at "
                            ++ url (config this) ++ str ": " ++ messageOf err)
                           (config this))
                        None)), w')
  | inl r =>
      if (status r =? 401)%N || (status r =? 403)%N
      then (Threw (ThrownError (AdGuardError AUTH_FAILED (Some (status r)))), w')
      else if ok r then (Returned tt, w')
      else (Threw (ThrownError
              (AdGuardError
                 (sanitizeMessage
                    (str "Connection check failed: "
                     ++ numberToString (status r) ++ str " " ++ statusText r)
                    (config this))
                 (Some (status r)))), w')
  end.
Proof.
  cbv zeta. unfold validateConnection, tryCatch, bind, fetch.
  destruct (network w (getRequest this (str "status"))) as [r|err].
  - destruct ((status r =? 401)%N || (status r =? 403)%N); [reflexivity|].
    now destruct (ok r).
  - now destruct (instanceofAdGuardError err).
Qed.

(** X3: every call of [get], [post], [getRaw] and [validateConnection]
    issues exactly one request, whatever the answer: nothing is retried, and
    nothing is skipped. *)
Theorem client_one_request (path : jsstring) (sent : option JsValue)
        (w : World) :
  snd (get this path w) = w ++ [getRequest this path]
  /\ snd (post this path sent w) = w ++ [postRequest this path sent]
  /\ snd (getRaw this path w) = w ++ [getRequest this path]
  /\ snd (validateConnection this w) = w ++ [getRequest this (str "status")].
Proof.
  rewrite get_cases, post_cases, getRaw_cases, validateConnection_cases.
  cbv zeta. repeat split.
  - destruct (network w (getRequest this path)) as [r|]; [|reflexivity].
    destruct (ok r); [|reflexivity].
    destruct (includes _ _); [|reflexivity].
    now destruct (JSON_parse (body r)).
  - destruct (network w (postRequest this path sent)) as [r|]; [|reflexivity].
    destruct (ok r); [|reflexivity].
    destruct (match headers_get r _ with Some _ => _ | None => _ end);
      [reflexivity|].
    destruct (body r); [reflexivity|].
    destruct (includes _ _); [|reflexivity].
    now destruct (JSON_parse _).
  - destruct (network w (getRequest this path)) as [r|]; [|reflexivity].
    now destruct (ok r).
  - destruct (network w (getRequest this (str "status"))) as [r|];
      [|reflexivity].
    destruct (_ || _); [reflexivity|]. now destruct (ok r).
Qed.

Lemma rethrown_AdGuardError (err : Thrown) :
  instanceofAdGuardError (rethrown err) = true.
Proof.
  unfold rethrown. now destruct (instanceofAdGuardError err) eqn:E.
Qed.

(** X4: whatever [get], [post], [getRaw] or [validateConnection] throws is
    an [AdGuardError]. *)
Theorem client_throws_AdGuardError (path : jsstring) (sent : option JsValue)
        (w : World) (err : Thrown) :
  fst (get this path w) = Threw err
  \/ fst (post this path sent w) = Threw err
  \/ fst (getRaw this path w) = Threw err
  \/ fst (validateConnection this w) = Threw err ->
  instanceofAdGuardError err = true.
Proof.
  rewrite get_cases, post_cases, getRaw_cases, validateConnection_cases.
  cbv zeta. intros [E | [E | [E | E]]].
  - destruct (network w (getRequest this path)) as [r|e0].
    + destruct (ok r); [|now injection E as <-].
      destruct (includes _ _); [|discriminate].
      destruct (JSON_parse (body r)); [discriminate | now injection E as <-].
    + injection E as <-. apply rethrown_AdGuardError.
  - destruct (network w (postRequest this path sent)) as [r|e0].
    + destruct (ok r); [|now injection E as <-].
      destruct (match headers_get r _ with Some _ => _ | None => _ end);
        [discriminate|].
      destruct (body r); [discriminate|].
      destruct (includes _ _); [|discriminate].
      now destruct (JSON_parse _).
    + injection E as <-. apply rethrown_AdGuardError.
  - destruct (network w (getRequest this path)) as [r|e0].
    + destruct (ok r); [discriminate | now injection E as <-].
    + injection E as <-. apply rethrown_AdGuardError.
  - destruct (network w (getRequest this (str "status"))) as [r|e0].
    + destruct (_ || _); [now injection E as <-|].
      destruct (ok r); [discriminate | now injection E as <-].
    + injection E as <-. now destruct (instanceofAdGuardError e0) eqn:Ee.
Qed.

End ClientCases.

Lemma client_throws_AdGuardError_witness :
  instanceofAdGuardError
    (ThrownError (AdGuardError (str "fetch failed") None)) = true.
Proof.
  exact (client_throws_AdGuardError (H := Demo.unreachable)
           (newAdGuardClient Demo.config) (str "status") None [] _
           (or_introl eq_refl)).
Defined.

Section ClientFailures.

Context `{Platform}.
Variable this : AdGuardClient.

Lemma foreign_rethrown (err : Thrown) :
  instanceofAdGuardError err = false ->
  (if instanceofAdGuardError err then err
   else ThrownError
          (AdGuardError (sanitizeMessage (messageOf err) (config this)) None))
  = ThrownError
      (AdGuardError (sanitizeMessage (messageOf err) (config this)) None).
Proof. now intros ->. Qed.

(** X5: when the credentials cannot meet the marker and [fetch] throws no
    [AdGuardError] of its own, the message of whatever [get], [post] or
    [getRaw] throws contains neither the username, nor the password, nor
    the base64 text of username:password. *)
Theorem client_failures_scrubbed (path : jsstring) (sent : option JsValue)
        (w : World) (err : Thrown) :
  avoidsMarker (username (config this)) = true ->
  avoidsMarker (password (config this)) = true ->
  foreignFailures ->
  fst (get this path w) = Threw err
  \/ fst (post this path sent w) = Threw err
  \/ fst (getRaw this path w) = Threw err ->
  credentialFree (config this) (messageOf err) = true.
Proof.
  intros Hu Hp Hf.
  assert (S : forall m, credentialFree (config this)
                          (sanitizeMessage m (config this)) = true).
  { intros m. now apply credentialFree_sanitized. }
  rewrite get_cases, post_cases, getRaw_cases. cbv zeta.
  intros [E | [E | E]].
  - destruct (network w (getRequest this path)) as [r|e0] eqn:Hn.
    + destruct (ok r); [|injection E as <-; apply S].
      destruct (includes _ _); [|discriminate].
      destruct (JSON_parse (body r)); [discriminate|].
      injection E as <-. apply S.
    + rewrite (foreign_rethrown e0 (Hf _ _ _ Hn)) in E.
      injection E as <-. apply S.
  - destruct (network w (postRequest this path sent)) as [r|e0] eqn:Hn.
    + destruct (ok r); [|injection E as <-; apply S].
      destruct (match headers_get r _ with Some _ => _ | None => _ end);
        [discriminate|].
      destruct (body r); [discriminate|].
      destruct (includes _ _); [|discriminate].
      now destruct (JSON_parse _).
    + rewrite (foreign_rethrown e0 (Hf _ _ _ Hn)) in E.
      injection E as <-. apply S.
  - destruct (network w (getRequest this path)) as [r|e0] eqn:Hn.
    + destruct (ok r); [discriminate | injection E as <-; apply S].
    + rewrite (foreign_rethrown e0 (Hf _ _ _ Hn)) in E.
      injection E as <-. apply S.
Qed.

(** X6: under the same conditions, what [validateConnection] throws has
    the fixed authentication text or a message free of the credentials. *)
Theorem validateConnection_failure_scrubbed (w : World) (err : Thrown) :
  avoidsMarker (username (config this)) = true ->
  avoidsMarker (password (config this)) = true ->
  foreignFailures ->
  fst (validateConnection this w) = Threw err ->
  messageOf err = AUTH_FAILED
  \/ credentialFree (config this) (messageOf err) = true.
Proof.
  intros Hu Hp Hf.
  assert (S : forall m, credentialFree (config this)
                          (sanitizeMessage m (config this)) = true).
  { intros m. now apply credentialFree_sanitized. }
  rewrite validateConnection_cases. cbv zeta. intros E.
  destruct (network w (getRequest this (str "status"))) as [r|e0] eqn:Hn.
  - destruct (_ || _); [injection E as <-; now left|].
    destruct (ok r); [discriminate|]. injection E as <-. right. apply S.
  - rewrite (Hf _ _ _ Hn) in E. injection E as <-. right. apply S.
Qed.

(** X7: under [foreignFailures], the error that [get] or [post] throws
    carries a status code exactly when the appliance answered outside 2xx,
    and the code is the status of that answer; a failure of [fetch] or of
    the JSON reader carries none. *)
Theorem client_status_code (path : jsstring) (sent : option JsValue)
        (w : World) (e : JsError) (s : N) :
  foreignFailures ->
  (fst (get this path w) = Threw (ThrownError e) ->
   (statusCode e = Some s <->
    exists r, network w (getRequest this path) = inl r
              /\ ok r = false /\ status r = s))
  /\ (fst (post this path sent w) = Threw (ThrownError e) ->
      (statusCode e = Some s <->
       exists r, network w (postRequest this path sent) = inl r
                 /\ ok r = false /\ status r = s)).
Proof.
  intros Hf. rewrite get_cases, post_cases. cbv zeta. split; intros E.
  - destruct (network w (getRequest this path)) as [r|e0] eqn:Hn.
    + destruct (ok r) eqn:Hok.
      * destruct (includes _ _); [|discriminate].
        destruct (JSON_parse (body r)); [discriminate|].
        injection E as <-. split; [discriminate|].
        intros (r' & [= <-] & Hno & _). congruence.
      * injection E as <-. cbn. split.
        -- intros [= <-]. now exists r.
        -- intros (r' & [= <-] & _ & <-). reflexivity.
    + rewrite (foreign_rethrown e0 (Hf _ _ _ Hn)) in E. injection E as <-.
      split; [discriminate | intros (r' & Hr & _); discriminate].
  - destruct (network w (postRequest this path sent)) as [r|e0] eqn:Hn.
    + destruct (ok r) eqn:Hok.
      * destruct (match headers_get r _ with Some _ => _ | None => _ end);
          [discriminate|].
        destruct (body r); [discriminate|].
        destruct (includes _ _); [|discriminate].
        now destruct (JSON_parse _).
      * injection E as <-. cbn. split.
        -- intros [= <-]. now exists r.
        -- intros (r' & [= <-] & _ & <-). reflexivity.
    + rewrite (foreign_rethrown e0 (Hf _ _ _ Hn)) in E. injection E as <-.
      split; [discriminate | intros (r' & Hr & _); discriminate].
Qed.

(** X8: on a 2xx answer [getRaw] returns the body as it came, whatever the
    content type says - also when it says JSON. *)
Theorem getRaw_verbatim (path : jsstring) (w : World) (r : Response) :
  network w (getRequest this path) = inl r ->
  ok r = true ->
  getRaw this path w = (Returned (body r), w ++ [getRequest this path]).
Proof.
  intros Hn Hok. rewrite getRaw_cases. cbv zeta. now rewrite Hn, Hok.
Qed.

(** X9: on a 2xx answer [post] always returns: the empty string for an
    empty body, and otherwise the body as text or the value that the JSON
    reader makes of it (or the empty string under content-length 0). *)
Theorem post_returns_on_ok (path : jsstring) (sent : option JsValue)
        (w : World) (r : Response) :
  network w (postRequest this path sent) = inl r ->
  ok r = true ->
  exists v,
    post this path sent w = (Returned v, w ++ [postRequest this path sent])
    /\ (body r = [] -> v = VString [])
    /\ (v = VString [] \/ v = VString (body r)
        \/ JSON_parse (body r) = inl v).
Proof.
  intros Hn Hok. rewrite post_cases. cbv zeta. rewrite Hn, Hok.
  destruct (match headers_get r _ with Some _ => _ | None => _ end).
  { exists (VString []). auto. }
  destruct (body r) as [|c b] eqn:Eb.
  { exists (VString []). auto. }
  destruct (includes _ _).
  - destruct (JSON_parse (c :: b)) as [v|msg] eqn:Ej.
    + exists v. repeat split; [discriminate | auto].
    + exists (VString (c :: b)). repeat split; [discriminate | auto].
  - exists (VString (c :: b)). repeat split; [discriminate | auto].
Qed.

(** X10: [validateConnection] succeeds exactly when the status endpoint
    answers with a 2xx status. *)
Theorem validateConnection_succeeds_iff (w : World) :
  fst (validateConnection this w) = Returned tt
  <-> answersOk w (getRequest this (str "status")) = true.
Proof.
  rewrite validateConnection_cases. cbv zeta. unfold answersOk.
  destruct (network w (getRequest this (str "status"))) as [r|e0].
  - destruct ((status r =? 401)%N || (status r =? 403)%N) eqn:Ea.
    + split; [discriminate|]. intros Hok. exfalso.
      apply orb_true_iff in Ea. unfold ok in Hok.
      apply andb_true_iff in Hok as [_ Hok]. apply N.leb_le in Hok.
      destruct Ea as [Ea | Ea]; apply N.eqb_eq in Ea; lia.
    + destruct (ok r); split; auto; discriminate.
  - split; discriminate.
Qed.

End ClientFailures.

Lemma client_failures_scrubbed_witness :
  let r := {| status := 500; statusText := str "hunter2 rejected";
              headers := []; body := [] |} in
  credentialFree Demo.config
    (str "GET status failed: 500 [REDACTED] rejected") = true.
Proof.
  intros r.
  refine (client_failures_scrubbed (H := Demo.replying r)
            (newAdGuardClient Demo.config) (str "status") None []
            (ThrownError (AdGuardError
               (str "GET status failed: 500 [REDACTED] rejected")
               (Some 500%N)))
            eq_refl eq_refl _ (or_introl eq_refl)).
  intros w req e E. discriminate.
Defined.

Lemma validateConnection_failure_scrubbed_witness :
  messageOf (ThrownError (AdGuardError
     (str "Cannot connect to AdGuard Home at http://adguard.local: fetch failed")
     None)) = AUTH_FAILED
  \/ credentialFree Demo.config
       (str "Cannot connect to AdGuard Home at http://adguard.local: fetch failed")
     = true.
Proof.
  refine (validateConnection_failure_scrubbed (H := Demo.unreachable)
            (newAdGuardClient Demo.config) [] _ eq_refl eq_refl _ eq_refl).
  intros w req e [= <-]. reflexivity.
Defined.

Lemma client_status_code_witness :
  let r := {| status := 502; statusText := str "Bad Gateway";
              headers := []; body := [] |} in
  statusCode (AdGuardError (str "GET status failed: 502 Bad Gateway")
                           (Some 502%N)) = Some 502%N
  <-> exists r', network (Platform := Demo.replying r) []
                   (getRequest (newAdGuardClient Demo.config) (str "status"))
                 = inl r'
                 /\ ok r' = false /\ status r' = 502%N.
Proof.
  intros r.
  refine (proj1 (client_status_code (H := Demo.replying r)
                   (newAdGuardClient Demo.config) (str "status") None []
                   _ 502%N _) eq_refl).
  intros w req e E. discriminate.
Defined.

Lemma getRaw_verbatim_witness :
  let r := Demo.response 200 (str "application/json") [] (str "{}") in
  let client := newAdGuardClient Demo.config in
  getRaw (H := Demo.replying r) client (str "apple/doh.mobileconfig") []
  = (Returned (str "{}"), [getRequest client (str "apple/doh.mobileconfig")]).
Proof.
  intros r client.
  exact (getRaw_verbatim (H := Demo.replying r) client
           (str "apple/doh.mobileconfig") [] r eq_refl eq_refl).
Defined.

Lemma post_returns_on_ok_witness :
  let r := Demo.response 200 (str "application/json") [] (str "oops") in
  let client := newAdGuardClient Demo.config in
  exists v,
    post (H := Demo.replying r) client (str "cache_clear") None []
    = (Returned v, [postRequest (H := Demo.replying r) client
                                (str "cache_clear") None])
    /\ (body r = [] -> v = VString [])
    /\ (v = VString [] \/ v = VString (body r)
        \/ JSON_parse (Platform := Demo.replying r) (body r) = inl v).
Proof.
  intros r client.
  exact (post_returns_on_ok (H := Demo.replying r) client
           (str "cache_clear") None [] r eq_refl eq_refl).
Defined.

(** ** The configuration: what is accepted, and what is made of it *)

Lemma filter_all (A : Type) (f : A -> bool) (l : list A) :
  Forall (fun c => f c = true) l ->
  (0 <? List.length (filter (fun c => negb (f c)) l)) = false.
Proof.
  induction 1 as [|x l Hx _ IH]; simpl; [reflexivity|]. now rewrite Hx.
Qed.

Lemma parsed_valid (raw : jsstring) :
  Forall (fun c => existsb (str_eqb c) VALID_CATEGORIES = true)
         (filter (fun c => 0 <? List.length c)
                 (map (fun c => toLowerCase (trim c)) (split ","%char raw)))
  <-> (forall c, In c (split ","%char raw) ->
                 trim c = [] \/ In (toLowerCase (trim c)) VALID_CATEGORIES).
Proof.
  rewrite Forall_forall. split.
  - intros Hall c Hc. destruct (trim c) as [|a t] eqn:Et; [now left|]. right.
    rewrite <- Et. apply includes_category, Hall, filter_In. split.
    + apply in_map_iff. now exists c.
    + rewrite Et. reflexivity.
  - intros Hall x Hx. apply filter_In in Hx as [Hx Hlen].
    apply in_map_iff in Hx as (c & <- & Hc).
    destruct (Hall c Hc) as [E | Hin]; [now rewrite E in Hlen|].
    now apply includes_category.
Qed.

(** X11: [loadConfig] returns a configuration exactly when the url, the
    username and the password are set and not empty, the tier - if set -
    reads [read-only] or [full] without regard to case and surrounding
    white space, and every comma-separated category - if the variable is
    set - is blank or, trimmed and in lower case, a valid category. *)
Theorem loadConfig_accepts_iff (env : Env) :
  (exists config, loadConfig env = Returned config)
  <-> isSet (ADGUARD_URL env) = true
      /\ isSet (ADGUARD_USERNAME env) = true
      /\ isSet (ADGUARD_PASSWORD env) = true
      /\ (isSet (ADGUARD_ACCESS_TIER env) = true ->
          let tier := trim (toLowerCase (the (ADGUARD_ACCESS_TIER env))) in
          tier = str "read-only" \/ tier = str "full")
      /\ (isSet (ADGUARD_CATEGORIES env) = true ->
          forall c, In c (split ","%char (the (ADGUARD_CATEGORIES env))) ->
                    trim c = [] \/ In (toLowerCase (trim c)) VALID_CATEGORIES).
Proof.
  rewrite <- parsed_valid. unfold loadConfig. cbv zeta.
  destruct (isSet (ADGUARD_URL env));
    [|split; [intros [c Hc]; discriminate | intros (E & _); discriminate]].
  destruct (isSet (ADGUARD_USERNAME env));
    [|split; [intros [c Hc]; discriminate | intros (_ & E & _); discriminate]].
  destruct (isSet (ADGUARD_PASSWORD env));
    [|split; [intros [c Hc]; discriminate
             | intros (_ & _ & E & _); discriminate]].
  cbn [negb app].
  change (0 <? @List.length jsstring []) with false. cbv iota.
  assert (Hcats :
    forall tier : AccessTier,
      (exists config,
         match
           (if isSet (ADGUARD_CATEGORIES env)
            then
              if 0 <? List.length
                   (filter (fun c => negb (existsb (str_eqb c) VALID_CATEGORIES))
                      (filter (fun c => 0 <? List.length c)
                         (map (fun c => toLowerCase (trim c))
                            (split ","%char (the (ADGUARD_CATEGORIES env))))))
              then Threw (ThrownError (newError
                     (str "Invalid ADGUARD_CATEGORIES: "
                      ++ join (str ", ")
                           (map quoted
                              (filter
                                 (fun c => negb (existsb (str_eqb c) VALID_CATEGORIES))
                                 (filter (fun c => 0 <? List.length c)
                                    (map (fun c => toLowerCase (trim c))
                                       (split ","%char
                                          (the (ADGUARD_CATEGORIES env)))))))
                      ++ str ". " ++ str "Valid categories: "
                      ++ join (str ", ") VALID_CATEGORIES)))
              else Returned (Some
                     (filter (fun c => 0 <? List.length c)
                        (map (fun c => toLowerCase (trim c))
                           (split ","%char (the (ADGUARD_CATEGORIES env))))))
            else Returned None)
         with
         | Returned categories =>
             Returned
               {| url := stripTrailingSlashes (the (ADGUARD_URL env));
                  username := the (ADGUARD_USERNAME env);
                  password := the (ADGUARD_PASSWORD env);
                  accessTier := tier;
                  categories := categories;
                  debug := isSet (DEBUG env);
                  confirmDestructive :=
                    match ADGUARD_CONFIRM_DESTRUCTIVE env with
                    | Some v => str_eqb (toLowerCase v) (str "true")
                    | None => false
                    end |}
         | Threw e => Threw e
         end = Returned config)
      <-> (isSet (ADGUARD_CATEGORIES env) = true ->
           Forall (fun c => existsb (str_eqb c) VALID_CATEGORIES = true)
             (filter (fun c => 0 <? List.length c)
                (map (fun c => toLowerCase (trim c))
                   (split ","%char (the (ADGUARD_CATEGORIES env))))))).
  { intros tier. destruct (isSet (ADGUARD_CATEGORIES env)).
    - match goal with
      | |- context [if (0 <? List.length ?l) then _ else _] =>
          destruct (0 <? List.length l) eqn:Einv
      end.
      + split; [intros [c Hc]; discriminate|]. intros Hall.
        rewrite (filter_all _ _ _ (Hall eq_refl)) in Einv. discriminate.
      + split; [|eauto]. intros _ _. now apply filter_none.
    - split; [discriminate | eauto]. }
  destruct (isSet (ADGUARD_ACCESS_TIER env)).
  - destruct (str_eqb _ (str "read-only")) eqn:Ero.
    + apply str_eqb_eq in Ero. rewrite (Hcats ReadOnly). tauto.
    + destruct (str_eqb _ (str "full")) eqn:Efull.
      * apply str_eqb_eq in Efull. rewrite (Hcats Full). tauto.
      * split; [intros [c Hc]; discriminate|].
        intros (_ & _ & _ & Ht & _). exfalso.
        destruct (Ht eq_refl) as [E | E]; apply str_eqb_eq in E; congruence.
  - rewrite (Hcats Full). intuition discriminate.
Qed.

Lemma stripTrailingSlashes_slashes (s : jsstring) :
  exists n, s = stripTrailingSlashes s ++ repeat "/"%char n.
Proof.
  induction s as [|a s [n IH]]; [now exists 0|]. simpl.
  destruct (stripTrailingSlashes s) as [|b r] eqn:E.
  - destruct (Ascii.eqb a "/") eqn:Ea.
    + apply Ascii.eqb_eq in Ea. subst a. exists (S n). simpl. now f_equal.
    + exists n. simpl. now f_equal.
  - exists n. simpl in *. now f_equal.
Qed.

(** X12: in a configuration that [loadConfig] returns, the username and
    the password are the variables as they are (nothing is trimmed), and
    the url is [ADGUARD_URL] without some number of slashes at its end. *)
Theorem loadConfig_verbatim (env : Env) (config : AppConfig) :
  loadConfig env = Returned config ->
  ADGUARD_USERNAME env = Some (username config)
  /\ ADGUARD_PASSWORD env = Some (password config)
  /\ exists n, ADGUARD_URL env = Some (url config ++ repeat "/"%char n).
Proof.
  unfold loadConfig. cbv zeta.
  destruct (0 <? List.length _) eqn:Emissing; [discriminate|].
  destruct (ADGUARD_URL env) as [u|]; [|discriminate].
  destruct (ADGUARD_USERNAME env) as [n|]; [|now destruct (isSet (Some u))].
  destruct (ADGUARD_PASSWORD env) as [p|];
    [|now destruct (isSet (Some u)), (isSet (Some n))].
  clear Emissing.
  match goal with
  | |- match ?parsedTier with _ => _ end = _ -> _ =>
      destruct parsedTier as [tier|e]; [|discriminate]
  end.
  match goal with
  | |- match ?parsedCats with _ => _ end = _ -> _ =>
      destruct parsedCats as [cats|e]; [|discriminate]
  end.
  intros [= <-]. cbn [username password url the]. repeat split.
  destruct (stripTrailingSlashes_slashes u) as [k Hk]. exists k. now f_equal.
Qed.

Lemma loadConfig_verbatim_witness :
  ADGUARD_USERNAME Demo.env = Some (username Demo.loaded)
  /\ ADGUARD_PASSWORD Demo.env = Some (password Demo.loaded)
  /\ exists n, ADGUARD_URL Demo.env
               = Some (url Demo.loaded ++ repeat "/"%char n).
Proof.
  exact (loadConfig_verbatim Demo.env Demo.loaded eq_refl).
Defined.

Lemma stripTrailingSlashes_only (n : nat) :
  stripTrailingSlashes (repeat "/"%char n) = [].
Proof. induction n as [|n IH]; simpl; [reflexivity | now rewrite IH]. Qed.

(** X13: the url of the configuration can be empty: an [ADGUARD_URL] made
    of slashes only passes the check for a missing variable and loses all
    of them. *)
Theorem loadConfig_url_of_slashes (env : Env) (config : AppConfig) (n : nat) :
  ADGUARD_URL env = Some (repeat "/"%char (S n)) ->
  isSet (ADGUARD_URL env) = true
  /\ (loadConfig env = Returned config -> url config = []).
Proof.
  intros Hu. rewrite Hu. split; [reflexivity|].
  unfold loadConfig. cbv zeta. rewrite Hu.
  destruct (0 <? List.length _); [discriminate|].
  match goal with
  | |- match ?parsedTier with _ => _ end = _ -> _ =>
      destruct parsedTier as [tier|e]; [|discriminate]
  end.
  match goal with
  | |- match ?parsedCats with _ => _ end = _ -> _ =>
      destruct parsedCats as [cats|e]; [|discriminate]
  end.
  intros [= <-]. cbn [url the]. apply (stripTrailingSlashes_only (S n)).
Qed.

Lemma loadConfig_url_of_slashes_witness :
  let env :=
    {| ADGUARD_URL := Some (str "//");
       ADGUARD_USERNAME := Some (str "admin");
       ADGUARD_PASSWORD := Some (str "hunter2");
       ADGUARD_ACCESS_TIER := None; ADGUARD_CATEGORIES := None;
       DEBUG := None; ADGUARD_CONFIRM_DESTRUCTIVE := None |} in
  let config :=
    {| url := []; username := str "admin"; password := str "hunter2";
       accessTier := Full; categories := None; debug := false;
       confirmDestructive := false |} in
  loadConfig env = Returned config /\ url config = [].
Proof.
  intros env config. split; [reflexivity|].
  exact (proj2 (loadConfig_url_of_slashes env config 1 eq_refl) eq_refl).
Defined.

(** X14: in a configuration that [loadConfig] returns, the tier is
    [read-only] only if the variable says so, and [full] if it is not set;
    there is no category list exactly when the variable is not set or
    empty; [debug] is on exactly when [DEBUG] is set and not empty; and
    [confirmDestructive] is on exactly when its variable, in lower case,
    is the text [true] (white space around it is not removed). *)
Theorem loadConfig_options (env : Env) (config : AppConfig) :
  loadConfig env = Returned config ->
  (accessTier config = ReadOnly <->
   isSet (ADGUARD_ACCESS_TIER env) = true
   /\ trim (toLowerCase (the (ADGUARD_ACCESS_TIER env))) = str "read-only")
  /\ (categories config = None <-> isSet (ADGUARD_CATEGORIES env) = false)
  /\ debug config = isSet (DEBUG env)
  /\ (confirmDestructive config = true <->
      exists v, ADGUARD_CONFIRM_DESTRUCTIVE env = Some v
                /\ toLowerCase v = str "true").
Proof.
  unfold loadConfig. cbv zeta.
  destruct (0 <? List.length _); [discriminate|].
  assert (Hcats :
    forall cats : option (list ToolCategory),
      (if isSet (ADGUARD_CATEGORIES env)
       then
         if 0 <? List.length
              (filter (fun c => negb (existsb (str_eqb c) VALID_CATEGORIES))
                 (filter (fun c => 0 <? List.length c)
                    (map (fun c => toLowerCase (trim c))
                       (split ","%char (the (ADGUARD_CATEGORIES env))))))
         then Threw (ThrownError (newError
                (str "Invalid ADGUARD_CATEGORIES: "
                 ++ join (str ", ")
                      (map quoted
                         (filter
                            (fun c => negb (existsb (str_eqb c) VALID_CATEGORIES))
                            (filter (fun c => 0 <? List.length c)
                               (map (fun c => toLowerCase (trim c))
                                  (split ","%char
                                     (the (ADGUARD_CATEGORIES env)))))))
                 ++ str ". " ++ str "Valid categories: "
                 ++ join (str ", ") VALID_CATEGORIES)))
         else Returned (Some
                (filter (fun c => 0 <? List.length c)
                   (map (fun c => toLowerCase (trim c))
                      (split ","%char (the (ADGUARD_CATEGORIES env))))))
       else Returned None) = Returned cats ->
      (cats = None <-> isSet (ADGUARD_CATEGORIES env) = false)).
  { intros cats. destruct (isSet (ADGUARD_CATEGORIES env)).
    - destruct (0 <? List.length _); [discriminate|]. intros [= <-].
      split; discriminate.
    - intros [= <-]. split; reflexivity. }
  assert (Hconfirm :
    (match ADGUARD_CONFIRM_DESTRUCTIVE env with
     | Some v => str_eqb (toLowerCase v) (str "true")
     | None => false
     end = true
     <-> exists v, ADGUARD_CONFIRM_DESTRUCTIVE env = Some v
                   /\ toLowerCase v = str "true")).
  { destruct (ADGUARD_CONFIRM_DESTRUCTIVE env) as [v|].
    - rewrite str_eqb_eq. split; [eauto|]. now intros (v' & [= <-] & E).
    - split; [discriminate | intros (v' & E & _); discriminate]. }
  destruct (isSet (ADGUARD_ACCESS_TIER env)).
  - destruct (str_eqb _ (str "read-only")) eqn:Ero.
    + match goal with
      | |- match ?parsedCats with _ => _ end = _ -> _ =>
          destruct parsedCats as [cats|e] eqn:Ec; [|discriminate]
      end.
      intros [= <-]. cbn [accessTier categories debug confirmDestructive].
      apply str_eqb_eq in Ero.
      split; [|split; [exact (Hcats cats Ec)
                      | split; [reflexivity | exact Hconfirm]]].
      split; [intros _; now split | reflexivity].
    + destruct (str_eqb _ (str "full")); [|discriminate].
      match goal with
      | |- match ?parsedCats with _ => _ end = _ -> _ =>
          destruct parsedCats as [cats|e] eqn:Ec; [|discriminate]
      end.
      intros [= <-]. cbn [accessTier categories debug confirmDestructive].
      split; [|split; [exact (Hcats cats Ec)
                      | split; [reflexivity | exact Hconfirm]]].
      split; [discriminate|]. intros [_ E].
      apply str_eqb_eq in E. congruence.
  - match goal with
    | |- match ?parsedCats with _ => _ end = _ -> _ =>
        destruct parsedCats as [cats|e] eqn:Ec; [|discriminate]
    end.
    intros [= <-]. cbn [accessTier categories debug confirmDestructive].
    split; [|split; [exact (Hcats cats Ec)
                    | split; [reflexivity | exact Hconfirm]]].
    split; [discriminate | intros [E _]; discriminate].
Qed.

Lemma loadConfig_options_witness :
  (accessTier Demo.loaded = ReadOnly <->
   isSet (ADGUARD_ACCESS_TIER Demo.env) = true
   /\ trim (toLowerCase (the (ADGUARD_ACCESS_TIER Demo.env)))
      = str "read-only")
  /\ (categories Demo.loaded = None
      <-> isSet (ADGUARD_CATEGORIES Demo.env) = false)
  /\ debug Demo.loaded = isSet (DEBUG Demo.env)
  /\ (confirmDestructive Demo.loaded = true <->
      exists v, ADGUARD_CONFIRM_DESTRUCTIVE Demo.env = Some v
                /\ toLowerCase v = str "true").
Proof.
  exact (loadConfig_options Demo.env Demo.loaded eq_refl).
Defined.

(** ** The gate under wider and narrower configurations *)

Lemma gate_rejects_iff `{Sdk} (server : McpServer) (D : ToolRegistration)
      (C : AppConfig) :
  registerTool server D C = (Returned false, server)
  <-> AccessTier_eqb (accessTier C) ReadOnly
      && AccessTier_eqb (reg_accessTier D) Full = true
      \/ match categories C with
         | Some allowed => negb (existsb (str_eqb (reg_category D)) allowed)
         | None => false
         end = true.
Proof.
  unfold registerTool.
  destruct (AccessTier_eqb (accessTier C) ReadOnly
            && AccessTier_eqb (reg_accessTier D) Full); [tauto|].
  destruct (match categories C with
            | Some allowed => negb (existsb (str_eqb (reg_category D)) allowed)
            | None => false
            end); [tauto|].
  split; [|intros [E | E]; discriminate].
  destruct (server_registerTool server (toolOf D C)) as [[[]|e] s'];
    discriminate.
Qed.

(** X15: what [registerTool] filters out under the full tier it filters
    out under the read-only tier of the same configuration: the tools of
    the read-only mode are among those of the full mode. *)
Theorem registerTool_read_only_subset `{Sdk} (server : McpServer)
        (D : ToolRegistration) (C : AppConfig) :
  registerTool server D (withTier C Full) = (Returned false, server) ->
  registerTool server D (withTier C ReadOnly) = (Returned false, server).
Proof.
  rewrite !gate_rejects_iff. cbn [withTier accessTier categories].
  intros [E | E]; [discriminate | now right].
Qed.

Lemma registerTool_read_only_subset_witness :
  registerTool (H := Demo.listServer) []
               (Demo.descriptor (str "tls_status") (str "tls") ReadOnly)
               (withTier Demo.config ReadOnly)
  = (Returned false, []).
Proof.
  exact (registerTool_read_only_subset (H := Demo.listServer) []
           (Demo.descriptor (str "tls_status") (str "tls") ReadOnly)
           Demo.config eq_refl).
Defined.

(** X16: a tool that is filtered out under a category list is filtered
    out under every list with fewer categories, and a tool that passes
    under a list passes without any list, the tier being the same. *)
Theorem registerTool_categories_monotone `{Sdk} (server : McpServer)
        (D : ToolRegistration) (C : AppConfig)
        (fewer more : list ToolCategory) :
  incl fewer more ->
  (registerTool server D (allowing C (Some more)) = (Returned false, server) ->
   registerTool server D (allowing C (Some fewer)) = (Returned false, server))
  /\ (registerTool server D (allowing C None) = (Returned false, server) ->
      registerTool server D (allowing C (Some more)) = (Returned false, server)).
Proof.
  intros Hincl. rewrite !gate_rejects_iff.
  cbn [allowing accessTier categories]. split.
  - intros [E | E]; [now left | right].
    apply negb_true_iff. apply negb_true_iff in E.
    apply not_true_iff_false. rewrite includes_category.
    apply not_true_iff_false in E. rewrite includes_category in E. auto.
  - intros [E | E]; [now left | discriminate].
Qed.

Lemma registerTool_categories_monotone_witness :
  let tls := Demo.descriptor (str "tls_status") (str "tls") ReadOnly in
  registerTool (H := Demo.listServer) [] tls
               (allowing Demo.config (Some [str "dns"]))
  = (Returned false, []).
Proof.
  intros tls.
  refine (proj1 (registerTool_categories_monotone (H := Demo.listServer) []
                   tls Demo.config [str "dns"] [str "dns"; str "stats"] _)
                eq_refl).
  intros c [<- | []]. now left.
Defined.

(** X17: under a read-only configuration none of the write tools of the
    catalogue that are modelled here is registered, whatever the category
    list, the client and the server; each of them needs the full tier. *)
Theorem write_tools_need_full_tier `{Platform} `{Sdk}
        (client : AdGuardClient) (C0 C : AppConfig) (server : McpServer) :
  accessTier C = ReadOnly ->
  Forall (fun D => registerTool server D C = (Returned false, server))
         (writeTools client C0).
Proof.
  intros Ht. unfold writeTools.
  repeat (apply Forall_cons;
          [apply gate_rejects_iff; left; rewrite Ht; reflexivity|]).
  apply Forall_nil.
Qed.

Lemma write_tools_need_full_tier_witness :
  Forall (fun D => registerTool (H := Demo.listServer) [] D Demo.loaded
                   = (Returned false, []))
         (writeTools (H := Demo.unreachable)
                     (newAdGuardClient Demo.loaded) Demo.loaded).
Proof.
  exact (write_tools_need_full_tier (H := Demo.unreachable)
           (H0 := Demo.listServer) (newAdGuardClient Demo.loaded)
           Demo.loaded Demo.loaded [] eq_refl).
Defined.

(** ** What a tool call gives back *)

(** X18: when the credentials cannot meet the marker, the text of the
    result that the registered callback gives for a handler that throws an
    [Error] contains neither the username, nor the password, nor the
    base64 text of username:password. *)
Theorem tool_error_scrubbed (D : ToolRegistration) (C : AppConfig)
        (args : Args) (w w' : World) (e : JsError) :
  avoidsMarker (username C) = true ->
  avoidsMarker (password C) = true ->
  reg_handler D args w = (Rejected (RaisedThrown (ThrownError e)), w') ->
  exists text,
    tool_callback (toolOf D C) args w
    = (Returned {| content := [TextContent text]; isError := Some true |}, w')
    /\ credentialFree C text = true.
Proof.
  intros Hu Hp Hh. exists (sanitizeMessage (message e) C). split.
  - cbn [tool_callback toolOf]. unfold wrapHandler. now rewrite Hh.
  - now apply credentialFree_sanitized.
Qed.

Lemma tool_error_scrubbed_witness :
  let client := newAdGuardClient Demo.config in
  let D := stats_reset (H := Demo.unreachable) client Demo.config in
  exists text,
    tool_callback (toolOf D Demo.config) (fun _ => VBool true) []
    = (Returned {| content := [TextContent text]; isError := Some true |},
       [postRequest (H := Demo.unreachable) client (str "stats_reset") None])
    /\ credentialFree Demo.config text = true.
Proof.
  intros client D.
  exact (tool_error_scrubbed D Demo.config (fun _ => VBool true) [] _
           (AdGuardError (str "fetch failed") None) eq_refl eq_refl eq_refl).
Defined.

(** ** The handlers that post *)

Section HandlerFacts.

Context `{Platform}.
Variable client : AdGuardClient.

Lemma post_result (path : jsstring) (sent : option JsValue) (w : World) :
  let req := postRequest client path sent in
  if answersOk w req
  then exists v, post client path sent w = (Returned v, w ++ [req])
  else exists e, post client path sent w = (Threw (ThrownError e), w ++ [req]).
Proof.
  cbv zeta. unfold answersOk. rewrite post_cases. cbv zeta.
  destruct (network w (postRequest client path sent)) as [r|err].
  - destruct (ok r); [|eauto].
    destruct (match headers_get r _ with Some _ => _ | None => _ end);
      [eauto|].
    destruct (body r); [eauto|].
    destruct (includes _ _); [|eauto].
    destruct (JSON_parse _); eauto.
  - destruct err as [e|image]; cbn [instanceofAdGuardError].
    + destruct (isAdGuardError e); eauto.
    + eauto.
Qed.

Lemma bind_run (A B : Type) (m : IO A) (k : A -> IO B) (w : World) :
  bind m k w = match m w with
               | (Returned a, w') => k a w'
               | (Threw e, w') => (Threw e, w')
               end.
Proof. reflexivity. Qed.

(** A handler that posts and then returns a fixed text. *)
Lemma post_then_text (path : jsstring) (sent : option JsValue)
      (done : jsstring) (w : World) :
  postsOnce (bind (post client path sent) (fun _ => ret done) w)
            w (postRequest client path sent) done.
Proof.
  unfold postsOnce, bind. pose proof (post_result path sent w) as P.
  cbv zeta in P. destruct (answersOk w (postRequest client path sent)).
  - destruct P as [v ->]. cbn. repeat split; auto. discriminate.
  - destruct P as [e ->]. cbn. repeat split; eauto; discriminate.
Qed.

Variable config : AppConfig.

(** X19: with [confirmDestructive] on and a falsy [confirm], the handlers
    of [querylog_clear], [dhcp_reset] and [dhcp_reset_leases] return the
    confirmation prompt and issue no request. *)
Theorem destructive_tools_ask_first (args : Args) (w : World) :
  confirmDestructive config = true ->
  truthy (args (str "confirm")) = false ->
  querylog_clear_handler client config args w = (Returned CONFIRM_PROMPT, w)
  /\ dhcp_reset_handler client config args w = (Returned CONFIRM_PROMPT, w)
  /\ dhcp_reset_leases_handler client config args w
     = (Returned CONFIRM_PROMPT, w).
Proof.
  intros Hc Ha.
  unfold querylog_clear_handler, dhcp_reset_handler, dhcp_reset_leases_handler.
  rewrite Hc, Ha. repeat split.
Qed.

(** X20: with [confirmDestructive] off, or with a truthy [confirm], the
    four destructive handlers issue exactly their one request and return
    their text of success exactly when it is answered with 2xx; otherwise
    they throw. *)
Theorem destructive_tools_proceed (args : Args) (w : World) :
  confirmDestructive config = false \/ truthy (args (str "confirm")) = true ->
  postsOnce (stats_reset_handler client config args w) w
            (postRequest client (str "stats_reset") None)
            (str "Statistics reset.")
  /\ postsOnce (querylog_clear_handler client config args w) w
               (postRequest client (str "querylog_clear") None)
               (str "Query log cleared.")
  /\ postsOnce (dhcp_reset_handler client config args w) w
               (postRequest client (str "dhcp/reset") (Some (VObject [])))
               (str "DHCP configuration reset to defaults.")
  /\ postsOnce (dhcp_reset_leases_handler client config args w) w
               (postRequest client (str "dhcp/reset_leases")
                            (Some (VObject [])))
               (str "All DHCP leases cleared.").
Proof.
  intros Hgo.
  assert (E : confirmDestructive config
              && negb (truthy (args (str "confirm"))) = false).
  { destruct Hgo as [-> | ->]; [reflexivity | apply andb_false_r]. }
  unfold stats_reset_handler, querylog_clear_handler, dhcp_reset_handler,
    dhcp_reset_leases_handler.
  rewrite E. repeat split; apply post_then_text.
Qed.

(** X21: [rewrites_update] deletes the rule and then adds the new one,
    whose domain and answer are the new ones if they are truthy and the
    current ones if not.  If the deletion is refused nothing is added; if
    the addition is refused the handler throws with the rule deleted, and
    issues no further request. *)
Theorem rewrites_update_not_atomic (args : Args) (w : World) :
  let domain := args (str "domain") in
  let answer := args (str "answer") in
  deletesThenAdds (rewrites_update_handler client args w) w
    (postRequest client (str "rewrite/delete")
       (Some (VObject [(str "domain", domain); (str "answer", answer)])))
    (postRequest client (str "rewrite/add")
       (Some (VObject
          [(str "domain", orElse (args (str "new_domain")) domain);
           (str "answer", orElse (args (str "new_answer")) answer)])))
    (str "Rewrite updated.").
Proof.
  cbv zeta. unfold deletesThenAdds, rewrites_update_handler.
  set (del := Some (VObject _)). set (add := Some (VObject _)).
  rewrite bind_run.
  pose proof (post_result (str "rewrite/delete") del w) as P1.
  cbv zeta in P1.
  destruct (answersOk w (postRequest client (str "rewrite/delete") del)).
  - destruct P1 as [v ->]. split; [discriminate|]. intros _.
    pose proof (post_then_text (str "rewrite/add") add
                  (str "Rewrite updated.")
                  (w ++ [postRequest client (str "rewrite/delete") del]))
      as (Hw & Hok & Hno).
    rewrite Hw, <- app_assoc. repeat split; auto. apply Hok.
  - destruct P1 as [e ->]. split; [|discriminate]. intros _. cbn. eauto.
Qed.

(** X22: [dhcp_update_static_lease] removes the lease and then adds the
    new one, with the same fall-back to the current values and the same
    gap: a refused addition leaves the lease removed. *)
Theorem dhcp_update_static_lease_not_atomic (args : Args) (w : World) :
  let mac := args (str "mac") in
  let ip := args (str "ip") in
  let hostname := args (str "hostname") in
  deletesThenAdds (dhcp_update_static_lease_handler client args w) w
    (postRequest client (str "dhcp/remove_static_lease")
       (Some (VObject [(str "mac", mac); (str "ip", ip);
                       (str "hostname", hostname)])))
    (postRequest client (str "dhcp/add_static_lease")
       (Some (VObject
          [(str "mac", orElse (args (str "new_mac")) mac);
           (str "ip", orElse (args (str "new_ip")) ip);
           (str "hostname", orElse (args (str "new_hostname")) hostname)])))
    (str "Static lease updated.").
Proof.
  cbv zeta. unfold deletesThenAdds, dhcp_update_static_lease_handler.
  set (del := Some (VObject _)). set (add := Some (VObject _)).
  rewrite bind_run.
  pose proof (post_result (str "dhcp/remove_static_lease") del w) as P1.
  cbv zeta in P1.
  destruct (answersOk w
              (postRequest client (str "dhcp/remove_static_lease") del)).
  - destruct P1 as [v ->]. split; [discriminate|]. intros _.
    pose proof (post_then_text (str "dhcp/add_static_lease") add
                  (str "Static lease updated.")
                  (w ++ [postRequest client
                           (str "dhcp/remove_static_lease") del]))
      as (Hw & Hok & Hno).
    rewrite Hw, <- app_assoc. repeat split; auto. apply Hok.
  - destruct P1 as [e ->]. split; [|discriminate]. intros _. cbn. eauto.
Qed.

(** X23: [parental_set] and [safebrowsing_set] post to the enable endpoint
    exactly when [enabled] is truthy - an absent [enabled] disables - and
    the text they return on success names what that endpoint does. *)
Theorem toggles_post_once (args : Args) (w : World) :
  let on := truthy (args (str "enabled")) in
  postsOnce (parental_set_handler client args w) w
    (postRequest client
       (if on then str "parental/enable" else str "parental/disable") None)
    (if on then str "Parental filtering enabled."
     else str "Parental filtering disabled.")
  /\ postsOnce (safebrowsing_set_handler client args w) w
       (postRequest client
          (if on then str "safebrowsing/enable"
           else str "safebrowsing/disable") None)
       (if on then str "Safe browsing enabled."
        else str "Safe browsing disabled.").
Proof.
  cbv zeta. unfold parental_set_handler, safebrowsing_set_handler.
  split; apply post_then_text.
Qed.

(** X24: [stats_set_config] always posts once, and the object it sends has
    exactly the fields among [enabled], [interval] and [ignored] that are
    not [undefined], in this order, with the values given - the empty
    object when none is given. *)
Theorem stats_set_config_sends_given (args : Args) (w : World) :
  postsOnce (stats_set_config_handler client args w) w
    (postRequest client (str "stats/config/update")
       (Some (VObject
          (map (fun key => (key, args key))
               (filter (fun key => isDefined (args key))
                       [str "enabled"; str "interval"; str "ignored"])))))
    (str "Statistics configuration updated.").
Proof.
  unfold stats_set_config_handler. cbn [filter map].
  replace (map (fun key => (key, args key))
             ((if isDefined (args (str "enabled")) then
                 str "enabled" ::
                 (if isDefined (args (str "interval")) then
                    str "interval" ::
                    (if isDefined (args (str "ignored")) then [str "ignored"]
                     else [])
                  else
                    if isDefined (args (str "ignored")) then [str "ignored"]
                    else [])
               else
                 if isDefined (args (str "interval")) then
                   str "interval" ::
                   (if isDefined (args (str "ignored")) then [str "ignored"]
                    else [])
                 else
                   if isDefined (args (str "ignored")) then [str "ignored"]
                   else [])))
    with ((if isDefined (args (str "enabled"))
           then [(str "enabled", args (str "enabled"))] else [])
          ++ (if isDefined (args (str "interval"))
              then [(str "interval", args (str "interval"))] else [])
          ++ (if isDefined (args (str "ignored"))
              then [(str "ignored", args (str "ignored"))] else [])).
  - apply post_then_text.
  - destruct (isDefined (args (str "enabled"))),
      (isDefined (args (str "interval"))),
      (isDefined (args (str "ignored"))); reflexivity.
Qed.

(** X25: [dns_clear_cache] and [rewrites_delete] post once, whatever the
    arguments, and return their text of success exactly on a 2xx answer. *)
Theorem plain_write_tools_post_once (args : Args) (w : World) :
  postsOnce (dns_clear_cache_handler client args w) w
            (postRequest client (str "cache_clear") None)
            (str "DNS cache cleared.")
  /\ postsOnce (rewrites_delete_handler client args w) w
       (postRequest client (str "rewrite/delete")
          (Some (VObject [(str "domain", args (str "domain"));
                          (str "answer", args (str "answer"))])))
       (str "Rewrite deleted.").
Proof.
  unfold dns_clear_cache_handler, rewrites_delete_handler.
  split; apply post_then_text.
Qed.

End HandlerFacts.

Lemma destructive_tools_ask_first_witness :
  dhcp_reset_handler (H := Demo.unreachable) (newAdGuardClient Demo.config)
                     Demo.config Demo.noArgs []
  = (Returned CONFIRM_PROMPT, []).
Proof.
  exact (proj1 (proj2 (destructive_tools_ask_first (H := Demo.unreachable)
                         (newAdGuardClient Demo.config) Demo.config
                         Demo.noArgs [] eq_refl eq_refl))).
Defined.

Lemma destructive_tools_proceed_witness :
  let r := Demo.response 200 (str "text/plain") [] (str "OK") in
  let client := newAdGuardClient Demo.config in
  postsOnce (H := Demo.replying r)
            (querylog_clear_handler (H := Demo.replying r) client Demo.config
                                    (fun _ => VBool true) [])
            [] (postRequest (H := Demo.replying r) client
                            (str "querylog_clear") None)
            (str "Query log cleared.").
Proof.
  intros r client.
  exact (proj1 (proj2 (destructive_tools_proceed (H := Demo.replying r)
                         client Demo.config (fun _ => VBool true) []
                         (or_intror eq_refl)))).
Defined.

(** ** A handler that reads, and a whole tool call *)

Lemma find_unique (fields : list (jsstring * JsValue)) (key : jsstring)
      (v : JsValue) :
  NoDup (map fst fields) -> In (key, v) fields ->
  find (fun f => str_eqb (fst f) key) fields = Some (key, v).
Proof.
  induction fields as [|[k x] fields IH]; intros Hd Hin; [destruct Hin|].
  cbn [find fst]. inversion Hd as [|? ? Hk Hd']; subst.
  destruct Hin as [[= -> ->] | Hin].
  - now rewrite (proj2 (str_eqb_eq key key) eq_refl).
  - destruct (str_eqb k key) eqn:E; [|auto].
    apply str_eqb_eq in E. subst k. exfalso. apply Hk.
    apply in_map_iff. now exists (key, v).
Qed.

Lemma find_absent (fields : list (jsstring * JsValue)) (key : jsstring) :
  ~ In key (map fst fields) ->
  find (fun f => str_eqb (fst f) key) fields = None.
Proof.
  induction fields as [|[k x] fields IH]; intros Hn; [reflexivity|].
  cbn [find fst]. destruct (str_eqb k key) eqn:E.
  - apply str_eqb_eq in E. subst k. exfalso. apply Hn. now left.
  - apply IH. intros Hin. apply Hn. now right.
Qed.

Section ReadingAndCalling.

Context `{Platform}.
Variable client : AdGuardClient.
Variable config : AppConfig.

(** X26: [parental_get_status] reads the field [enable] of what [get]
    returns.  For an object it reports enabled exactly when that field is
    there and truthy - a field [enabled] does not count; for a text, a
    number, a boolean or an array it reports disabled; for [null] it throws
    a [TypeError].  It issues nothing beyond the one request of [get]. *)
Theorem parental_get_status_reads_enable (args : Args) (w w' : World)
        (data : JsValue) :
  get client (str "parental/status") w = (Returned data, w') ->
  let run := parental_get_status_handler client args w in
  let report (on : bool) :=
    Returned (str "Parental Filtering: "
              ++ if on then str "enabled" else str "disabled") in
  snd run = w'
  /\ match data with
     | VObject fields =>
         (forall v, NoDup (map fst fields) -> In (str "enable", v) fields ->
                    fst run = report (truthy v))
         /\ (~ In (str "enable") (map fst fields) -> fst run = report false)
     | VNull | VUndefined =>
         exists e, fst run = Threw (ThrownError e) /\ name e = str "TypeError"
     | _ => fst run = report false
     end.
Proof.
  intros Hg. cbv zeta. unfold parental_get_status_handler.
  rewrite bind_run, Hg.
  destruct data; cbn; try (split; [reflexivity|]); eauto.
  split.
  - intros v Hd Hin. now rewrite (find_unique fields _ v Hd Hin).
  - intros Hn. now rewrite (find_absent fields _ Hn).
Qed.

(** X27: a call of the registered [stats_reset] tool that goes ahead
    (confirmations off, or [confirm] truthy) always returns a result, after
    exactly one request: the text of success without error mark on a 2xx
    answer, and otherwise a result marked as an error whose text - when the
    credentials cannot meet the marker - is free of them. *)
Theorem stats_reset_call (args : Args) (w : World) :
  confirmDestructive config = false \/ truthy (args (str "confirm")) = true ->
  let req := postRequest client (str "stats_reset") None in
  exists text,
    tool_callback (toolOf (stats_reset client config) config) args w
    = (Returned {| content := [TextContent text];
                   isError := if answersOk w req then None else Some true |},
       w ++ [req])
    /\ (answersOk w req = true -> text = str "Statistics reset.")
    /\ (answersOk w req = false ->
        avoidsMarker (username config) = true ->
        avoidsMarker (password config) = true ->
        credentialFree config text = true).
Proof.
  intros Hgo. cbv zeta.
  assert (E : confirmDestructive config
              && negb (truthy (args (str "confirm"))) = false).
  { destruct Hgo as [-> | ->]; [reflexivity | apply andb_false_r]. }
  cbn [tool_callback toolOf]. unfold wrapHandler.
  cbn [reg_handler stats_reset]. unfold asHandler.
  unfold stats_reset_handler. rewrite E, bind_run.
  pose proof (post_result client (str "stats_reset") None w) as P.
  cbv zeta in P.
  destruct (answersOk w (postRequest client (str "stats_reset") None)).
  - destruct P as [v ->]. cbn. eexists. repeat split. discriminate.
  - destruct P as [e ->]. cbn. eexists. repeat split; [discriminate|].
    intros _ Hu Hp. now apply credentialFree_sanitized.
Qed.

End ReadingAndCalling.

Lemma parental_get_status_reads_enable_witness :
  let r := Demo.response 200 (str "text/plain") [] (str "enabled") in
  let client := newAdGuardClient Demo.config in
  parental_get_status_handler (H := Demo.replying r) client Demo.noArgs []
  = (Returned (str "Parental Filtering: disabled"),
     [getRequest client (str "parental/status")]).
Proof.
  intros r client.
  pose proof (parental_get_status_reads_enable (H := Demo.replying r) client
                Demo.noArgs [] _ (VString (str "enabled")) eq_refl) as [Hw Hr].
  rewrite (surjective_pairing (parental_get_status_handler client Demo.noArgs [])).
  now rewrite Hw, Hr.
Defined.

Lemma stats_reset_call_witness :
  let r := {| status := 500; statusText := str "hunter2 rejected";
              headers := []; body := [] |} in
  let client := newAdGuardClient Demo.config in
  exists text,
    tool_callback (toolOf (stats_reset (H := Demo.replying r) client Demo.config)
                          Demo.config) (fun _ => VBool true) []
    = (Returned {| content := [TextContent text]; isError := Some true |},
       [postRequest (H := Demo.replying r) client (str "stats_reset") None])
    /\ (false = true -> text = str "Statistics reset.")
    /\ (false = false ->
        avoidsMarker (username Demo.config) = true ->
        avoidsMarker (password Demo.config) = true ->
        credentialFree Demo.config text = true).
Proof.
  intros r client.
  exact (stats_reset_call (H := Demo.replying r) client Demo.config
           (fun _ => VBool true) [] (or_intror eq_refl)).
Defined.

(** ** The error for missing variables *)

(** X28: when a required variable is missing, [loadConfig] throws, and what
    it throws is the same for every environment in which the same required
    variables are missing: it depends on no value of any variable - not on
    the credentials that are set, nor on the tier or the categories, which
    are not looked at. *)
Theorem loadConfig_missing_independent (env env' : Env) :
  isSet (ADGUARD_URL env) = isSet (ADGUARD_URL env') ->
  isSet (ADGUARD_USERNAME env) = isSet (ADGUARD_USERNAME env') ->
  isSet (ADGUARD_PASSWORD env) = isSet (ADGUARD_PASSWORD env') ->
  isSet (ADGUARD_URL env) && isSet (ADGUARD_USERNAME env)
  && isSet (ADGUARD_PASSWORD env) = false ->
  loadConfig env = loadConfig env'
  /\ exists e, loadConfig env = Threw (ThrownError e).
Proof.
  intros Eu En Ep Hm. unfold loadConfig. cbv zeta.
  rewrite <- Eu, <- En, <- Ep.
  destruct (isSet (ADGUARD_URL env)), (isSet (ADGUARD_USERNAME env)),
    (isSet (ADGUARD_PASSWORD env)); try discriminate;
    cbn [negb app List.length Nat.ltb Nat.leb]; eauto.
Qed.

Lemma loadConfig_missing_independent_witness :
  let env :=
    {| ADGUARD_URL := Some (str "http://adguard.local");
       ADGUARD_USERNAME := Some (str "admin");
       ADGUARD_PASSWORD := None;
       ADGUARD_ACCESS_TIER := Some (str "bogus");
       ADGUARD_CATEGORIES := None;
       DEBUG := None; ADGUARD_CONFIRM_DESTRUCTIVE := None |} in
  let env' :=
    {| ADGUARD_URL := Some (str "http://other");
       ADGUARD_USERNAME := Some (str "root");
       ADGUARD_PASSWORD := Some [];
       ADGUARD_ACCESS_TIER := None;
       ADGUARD_CATEGORIES := Some (str "dns");
       DEBUG := Some (str "1"); ADGUARD_CONFIRM_DESTRUCTIVE := None |} in
  loadConfig env = loadConfig env'
  /\ exists e, loadConfig env = Threw (ThrownError e).
Proof.
  intros env env'.
  exact (loadConfig_missing_independent env env' eq_refl eq_refl eq_refl
           eq_refl).
Defined.

Example loadConfig_missing_text :
  loadConfig (Build_Env None (Some (str "admin")) None None None None None)
  = Threw (ThrownError (newError
      (str "Missing required environment variables: ADGUARD_URL, ADGUARD_PASSWORD. Set these variables to connect to your AdGuard Home instance."))).
Proof. reflexivity. Qed.
